(** * Job store and stage scheduler of the scraper framework

    A shallow embedding of [src/database.ts] (the abstract [Database], the
    [InMemoryDatabase] and [BunSqlDatabase] back ends), of the
    [FetchDownloader] and of [ScraperProcessor], followed by the properties
    of the job life cycle.

    Conventions of the embedding:
    - JavaScript numbers that hold counters and versions are [Z];
    - a [date] is the ISO-8601 string of the source read as the number of
      milliseconds since the epoch ([new Date(s).getTime()]), a [Z];
    - [undefined] / [null] / SQL [NULL] are [None];
    - asynchronous methods are run to completion: every function below is
      one uninterrupted execution of the method it is named after, and the
      clock reading(s) the method takes are passed in as [now]. *)

From Stdlib Require Import ZArith Lia.
From Stdlib.Strings Require Import Byte.
From stdpp Require Import base option list strings pretty gmap sorting.

Local Open Scope string_scope.
Local Open Scope list_scope.
Local Open Scope Z_scope.

(** ** Data model *)

(** [interface ProcessorJob]. *)
Module ProcessorJob.
Record t : Type := mk {
  url : string;
  version : Z;
  attempt : Z;
  date : Z;
  processor : string;
  error : option string
}.

#[global] Instance eq_dec : EqDecision t.
Proof. solve_decision. Defined.
End ProcessorJob.

(** The read-only fields of a [ScraperProcessor] that the database reads.
    [ident] stands for the identity of the JavaScript object: the pending
    map and the [NEW_JOBS] listeners compare processors by reference. *)
Module Processor.
Record t : Type := mk {
  ident : nat;
  name : string;
  version : Z;
  intervalMs : Z;
  maxAttempts : Z
}.

#[global] Instance eq_dec : EqDecision t.
Proof. solve_decision. Defined.
End Processor.

(** A thrown [Error] with its message. *)
Inductive JsError : Type := Error (message : string).

#[global] Instance JsError_eq_dec : EqDecision JsError.
Proof. solve_decision. Defined.

(** [enum DatabaseEvents]: the only event carries the processor. *)
Inductive DatabaseEvent : Type := NEW_JOBS (processor : Processor.t).

(** JavaScript truthiness of an optional string ([job.error && ...]):
    [undefined] and the empty string are falsy. *)
Definition truthy (e : option string) : Prop :=
  match e with
  | Some s => s ≠ ""
  | None => False
  end.

#[global] Instance truthy_dec e : Decision (truthy e).
Proof. destruct e; simpl; apply _. Defined.

(** The key a row is found by: [j.url === url && j.processor === name]. *)
Definition sameKey (u stage : string) (j : ProcessorJob.t) : Prop :=
  ProcessorJob.url j = u ∧ ProcessorJob.processor j = stage.

#[global] Instance sameKey_dec u stage j : Decision (sameKey u stage j).
Proof. unfold sameKey; apply _. Defined.

(** The (url, stage) pair of a row. *)
Definition keyOf (j : ProcessorJob.t) : string * string :=
  (ProcessorJob.url j, ProcessorJob.processor j).

(** The row [batchInsertUrls] creates for a URL. *)
Definition freshJob (p : Processor.t) (now : Z) (u : string) : ProcessorJob.t :=
  ProcessorJob.mk u (Processor.version p) 0 now (Processor.name p) None.

(** ** The storage back ends *)

(** The abstract methods of [class Database]. [query] and [update] are
    public, [batchInsertUrls] is the protected insertion hook. *)
Class Backend (S : Type) : Type := {
  db_query : S → Processor.t → gset string → Z → list ProcessorJob.t;
  db_batchInsertUrls : list string → Processor.t → Z → S → S;
  db_update : ProcessorJob.t → S → JsError + S
}.

(** *** [class InMemoryDatabase] *)
Module InMemoryDatabase.

(** [private jobs: ProcessorJob[]]. *)
Record t : Type := mk { jobs : list ProcessorJob.t }.

(** The second [filter] of [query]. *)
Definition isDue (p : Processor.t) (now : Z) (job : ProcessorJob.t) : Prop :=
  ProcessorJob.attempt job = 0
  ∨ ProcessorJob.version job ≠ Processor.version p
  ∨ (truthy (ProcessorJob.error job)
     ∧ ProcessorJob.attempt job < Processor.maxAttempts p)
  ∨ ProcessorJob.date job < now - Processor.intervalMs p.

#[global] Instance isDue_dec p now job : Decision (isDue p now job).
Proof. unfold isDue; apply _. Defined.

Definition query (this : t) (p : Processor.t)
    (currentlyProcessingUrls : gset string) (now : Z) : list ProcessorJob.t :=
  filter (λ job, ProcessorJob.url job ∉ currentlyProcessingUrls)
    (filter (isDue p now)
      (filter (λ job, ProcessorJob.processor job = Processor.name p)
         (jobs this))).

Definition batchInsertUrls (urls : list string) (p : Processor.t) (now : Z)
    (this : t) : t :=
  let newUrls :=
    filter (λ u, ¬ Exists (sameKey u (Processor.name p)) (jobs this)) urls in
  mk (jobs this ++ map (freshJob p now) newUrls).

Definition notFound (job : ProcessorJob.t) : JsError :=
  Error ("Job for URL " +:+ ProcessorJob.url job +:+ " and processor "
         +:+ ProcessorJob.processor job +:+ " not found").

(** [existing] is the first row with the key; it is assigned in place. *)
Definition assign (job existing : ProcessorJob.t) : ProcessorJob.t :=
  ProcessorJob.mk
    (ProcessorJob.url existing)
    (ProcessorJob.version job)
    (ProcessorJob.attempt job)
    (ProcessorJob.date job)
    (ProcessorJob.processor existing)
    (ProcessorJob.error job).

Definition update (job : ProcessorJob.t) (this : t) : JsError + t :=
  match list_find (sameKey (ProcessorJob.url job) (ProcessorJob.processor job))
                  (jobs this) with
  | Some (i, existing) => inr (mk (<[i := assign job existing]> (jobs this)))
  | None => inl (notFound job)
  end.

#[global] Instance backend : Backend t :=
  {| db_query := query;
     db_batchInsertUrls := batchInsertUrls;
     db_update := update |}.

End InMemoryDatabase.

(** *** [class BunSqlDatabase]

    The [jobs] table is the list of its rows in insertion order; the
    statements are read with SQLite's semantics. [PRIMARY KEY (url,
    processor)] is what [INSERT OR IGNORE] checks. *)
Module BunSqlDatabase.

Record t : Type := mk { rows : list ProcessorJob.t }.

(** The [WHERE] clause of [query]. *)
Definition whereDue (p : Processor.t) (now : Z) (row : ProcessorJob.t) : Prop :=
  ProcessorJob.processor row = Processor.name p
  ∧ (ProcessorJob.attempt row = 0
     ∨ (ProcessorJob.error row ≠ None
        ∧ ProcessorJob.attempt row < Processor.maxAttempts p)
     ∨ ProcessorJob.version row ≠ Processor.version p
     ∨ ProcessorJob.date row < now - Processor.intervalMs p).

#[global] Instance whereDue_dec p now row : Decision (whereDue p now row).
Proof. unfold whereDue; apply _. Defined.

(** [ORDER BY date ASC]. *)
Definition dateAsc (a b : ProcessorJob.t) : Prop :=
  ProcessorJob.date a ≤ ProcessorJob.date b.

#[global] Instance dateAsc_dec a b : Decision (dateAsc a b).
Proof. unfold dateAsc; apply _. Defined.

#[global] Instance dateAsc_total : Total dateAsc.
Proof. intros a b. unfold dateAsc. lia. Qed.

#[global] Instance dateAsc_trans : Transitive dateAsc.
Proof. intros a b c. unfold dateAsc. lia. Qed.

(** [query(processor)]: the method declares no second parameter, the
    in-flight set a caller passes is dropped. *)
Definition query (this : t) (p : Processor.t) (now : Z) : list ProcessorJob.t :=
  take 20 (merge_sort dateAsc (filter (whereDue p now) (rows this))).

(** The time values a [Date] can hold: within 8.64e15 ms of the epoch.
    [new Date(ms)] outside of them is an invalid date, on which
    [toISOString()] throws a [RangeError]. *)
Definition timeValueInRange (ms : Z) : Prop :=
  -8640000000000000 ≤ ms ≤ 8640000000000000.

#[global] Instance timeValueInRange_dec ms : Decision (timeValueInRange ms).
Proof. unfold timeValueInRange; apply _. Defined.

(** The method with the conversion that precedes the statement:
    [new Date(Date.now() - processor.intervalMs).toISOString()] is
    evaluated first, and when it throws the method rejects ([None]) and
    no row is read. *)
Definition queryOrThrow (this : t) (p : Processor.t) (now : Z)
    : option (list ProcessorJob.t) :=
  if decide (timeValueInRange (now - Processor.intervalMs p))
  then Some (query this p now) else None.

(** [INSERT OR IGNORE INTO jobs ...]: the rows go in one by one, a row
    whose key is taken is skipped. *)
Definition insertOrIgnore (tbl : list ProcessorJob.t) (row : ProcessorJob.t)
    : list ProcessorJob.t :=
  if decide (Exists (sameKey (ProcessorJob.url row) (ProcessorJob.processor row)) tbl)
  then tbl else tbl ++ [row].

Definition batchInsertUrls (urls : list string) (p : Processor.t) (now : Z)
    (this : t) : t :=
  mk (foldl insertOrIgnore (rows this) (map (freshJob p now) urls)).

(** [SET ${sql(job)}] assigns the columns named by the keys of [job]; a
    job object without an [error] key leaves that column alone. *)
Definition setColumns (job row : ProcessorJob.t) : ProcessorJob.t :=
  ProcessorJob.mk
    (ProcessorJob.url job)
    (ProcessorJob.version job)
    (ProcessorJob.attempt job)
    (ProcessorJob.date job)
    (ProcessorJob.processor job)
    (match ProcessorJob.error job with
     | Some e => Some e
     | None => ProcessorJob.error row
     end).

(** [UPDATE jobs SET ... WHERE url = ... AND processor = ...]: the number
    of rows changed is not looked at. *)
Definition update (job : ProcessorJob.t) (this : t) : JsError + t :=
  inr (mk (map (λ row,
              if decide (sameKey (ProcessorJob.url job) (ProcessorJob.processor job) row)
              then setColumns job row else row) (rows this))).

#[global] Instance backend : Backend t :=
  {| db_query := λ this p _ now, query this p now;
     db_batchInsertUrls := batchInsertUrls;
     db_update := update |}.

End BunSqlDatabase.

(** ** [abstract class Database]: the pending buffer and its two flushes *)
Module Database.

(** [pendingUrls] is a [Map]: an association list in insertion order.
    [emitted] is the log of the events passed to [emit]. [flushArmed]
    records that the debounced wrapper has been called and its timer has
    not fired yet; [debounce] itself lives in [./helpers], which is not
    among the sources, and nothing below depends on when the timer
    fires. *)
Record t (S : Type) : Type := mk {
  pendingUrls : list (Processor.t * list string);
  store : S;
  emitted : list DatabaseEvent;
  flushArmed : bool
}.
#[global] Arguments mk {S} _ _ _ _.
#[global] Arguments pendingUrls {S} _.
#[global] Arguments store {S} _.
#[global] Arguments emitted {S} _.
#[global] Arguments flushArmed {S} _.

(** [get], [set] when absent, then [push(...urls)] on the array. *)
Fixpoint pushPending (p : Processor.t) (urls : list string)
    (m : list (Processor.t * list string)) : list (Processor.t * list string) :=
  match m with
  | [] => [(p, urls)]
  | (q, l) :: m' =>
      if decide (q = p) then (q, l ++ urls) :: m'
      else (q, l) :: pushPending p urls m'
  end.

(** [this.pendingUrls.get(processor)]. *)
Fixpoint pendingGet (p : Processor.t) (m : list (Processor.t * list string))
    : option (list string) :=
  match m with
  | [] => None
  | (q, l) :: m' => if decide (q = p) then Some l else pendingGet p m'
  end.

(** The processors whose pending array is not empty, in map order:
    those the loops over [pendingUrls.entries()] do not skip. *)
Definition notified (m : list (Processor.t * list string)) : list Processor.t :=
  fst <$> filter (λ entry, entry.2 ≠ []) m.

Section WithBackend.
Context {S : Type} `{!Backend S}.

(** [add(urls: string | string[], processor)]. *)
Definition add (urls : string + list string) (p : Processor.t) (db : t S) : t S :=
  let pushed := match urls with inl u => [u] | inr us => us end in
  mk (pushPending p pushed (pendingUrls db)) (store db) (emitted db) true.

(** The callback handed to [debounce]: what runs when the timer fires. *)
Definition insertManyUrlsWrapper (now : Z) (db : t S) : t S :=
  let step (acc : S * list DatabaseEvent) (entry : Processor.t * list string) :=
    match entry.2 with
    | [] => acc
    | _ => (db_batchInsertUrls entry.2 entry.1 now acc.1,
            acc.2 ++ [NEW_JOBS entry.1])
    end in
  let r := foldl step (store db, emitted db) (pendingUrls db) in
  mk [] r.1 r.2 false.

(** [close()]. The debounce timer is not touched. *)
Definition close (now : Z) (db : t S) : t S :=
  let step (acc : S) (entry : Processor.t * list string) :=
    match entry.2 with
    | [] => acc
    | _ => db_batchInsertUrls entry.2 entry.1 now acc
    end in
  mk [] (foldl step (store db) (pendingUrls db)) (emitted db) (flushArmed db).

Definition update (job : ProcessorJob.t) (db : t S) : JsError + t S :=
  match db_update job (store db) with
  | inl e => inl e
  | inr s => inr (mk (pendingUrls db) s (emitted db) (flushArmed db))
  end.

Definition query (db : t S) (p : Processor.t) (inFlight : gset string)
    (now : Z) : list ProcessorJob.t :=
  db_query (store db) p inFlight now.
End WithBackend.

End Database.

(** ** [class FetchDownloader] *)

Definition Buffer : Type := list byte.

(** What [fetch(url, options)] does, as the downloader sees it: the call
    rejects, or it resolves to a response whose [arrayBuffer()] resolves or
    rejects. [response.ok] is the Fetch standard's "status in 200..299". *)
Inductive FetchResult : Type :=
  | FetchRejects (e : JsError)
  | FetchResponds (status : Z) (statusText : string) (body : JsError + Buffer).

Definition responseOk (status : Z) : bool :=
  bool_decide (200 ≤ status ≤ 299).

(** The calls a download makes on its collaborators, in order. *)
Inductive Effect : Type :=
  | CacheGet (url : string)
  | SemaphoreAcquire
  | FetchCall (url : string)
  | CacheSet (url : string) (data : Buffer)
  | SemaphoreRelease.

(** Modelled from the spec: the cache back end ([ICache] of [./cache],
    which is not among the sources). [get(key)] gives the bytes stored
    under the key or nothing, [set(key, bytes)] stores them. *)
Definition ICache : Type := gmap string Buffer.

Definition cacheGet (url : string) (c : ICache) : option Buffer :=
  (c : gmap string Buffer) !! url.

Definition cacheSet (url : string) (data : Buffer) (c : ICache) : ICache :=
  <[url := data]> (c : gmap string Buffer).

(** The abstract [Downloader]. *)
Class Downloader (D : Type) : Type := {
  dl_download : string → D → (JsError + Buffer) * D
}.

Module FetchDownloader.

(** [cache] is the [ICache] behind the downloader, [network] the outside
    world [fetch] talks to, [effects] the log of calls made so far. *)
Record t : Type := mk {
  cache : ICache;
  network : string → FetchResult;
  effects : list Effect
}.

(** Modelled from the spec: [Semaphore.with] of [./helpers], which is
    not part of the sources at hand. A slot of the bounded semaphore is
    acquired, the body runs, and the slot is released whether the body
    returns or throws. *)
Definition semaphoreWith {A : Type} (body : A * list Effect) : A * list Effect :=
  (body.1, [SemaphoreAcquire] ++ body.2 ++ [SemaphoreRelease]).

Definition httpError (status : Z) (statusText url : string) : JsError :=
  Error ("HTTP error! status: " +:+ pretty status +:+ " " +:+ statusText
         +:+ " for URL: " +:+ url).

(** The body passed to [semaphore.with]: the result, the cache it leaves
    and the calls it made. *)
Definition fetchAndStore (url : string) (this : t)
    : ((JsError + Buffer) * ICache) * list Effect :=
  match network this url with
  | FetchRejects e => ((inl e, cache this), [FetchCall url])
  | FetchResponds status statusText body =>
      if responseOk status then
        match body with
        | inl e => ((inl e, cache this), [FetchCall url])
        | inr buffer =>
            ((inr buffer, cacheSet url buffer (cache this)),
             [FetchCall url; CacheSet url buffer])
        end
      else ((inl (httpError status statusText url), cache this), [FetchCall url])
  end.

Definition download (url : string) (this : t) : (JsError + Buffer) * t :=
  match cacheGet url (cache this) with
  | Some cached =>
      (inr cached, mk (cache this) (network this) (effects this ++ [CacheGet url]))
  | None =>
      let r := semaphoreWith (fetchAndStore url this) in
      (r.1.1, mk r.1.2 (network this) (effects this ++ [CacheGet url] ++ r.2))
  end.

#[global] Instance downloader : Downloader t := {| dl_download := download |}.

End FetchDownloader.

(** ** [class ScraperProcessor] *)

(** How an [async] call ends. *)
Inductive Completion : Type :=
  | Returned
  | Thrown (e : JsError).

(** What a processing callback did: the [add] calls it made on processors
    that share the database, and the error it threw, if any. *)
Record CallbackRun : Type := mkRun {
  adds : list (list string * Processor.t);
  thrown : option JsError
}.

(** [enum ScraperProcessorEvents]. *)
Inductive ProcessorEvent : Type := JOB_PROCESSED (job : ProcessorJob.t).

Module ScraperProcessor.

(** *** The wait of [getNextPendingJob] when nothing is due

    The promise executor arms a timer and subscribes [finish]; the
    promise resolves when either callback runs. A [Waiter] is the state
    of these three things. *)
Definition WAIT_TIMEOUT_MS : Z := 1000.

Inductive WaitEvent : Type :=
  | TimerFired
  | Emitted (e : DatabaseEvent).

Record Waiter : Type := mkWaiter {
  resolved : bool;
  timerArmed : bool;
  listening : bool
}.

(** After [setTimeout(..., 1000)] and [database.on(NEW_JOBS, finish)]. *)
Definition waiting : Waiter := mkWaiter false true true.

(** The timer callback: [database.off(NEW_JOBS, finish); resolve()]. *)
Definition onTimeout (w : Waiter) : Waiter := mkWaiter true false false.

(** [finish(processor)]: other processors' events are ignored. *)
Definition finish (self p : Processor.t) (w : Waiter) : Waiter :=
  if decide (p ≠ self) then w else mkWaiter true false false.

(** The runtime hands one event to whatever is still registered. *)
Definition deliver (self : Processor.t) (ev : WaitEvent) (w : Waiter) : Waiter :=
  match ev with
  | TimerFired => if timerArmed w then onTimeout w else w
  | Emitted (NEW_JOBS p) => if listening w then finish self p w else w
  end.

(** The time, in milliseconds since the wait began, at which the promise
    resolves over a timeline of dated events; [None] when it does not. *)
Fixpoint awaitWait (self : Processor.t) (timeline : list (Z * WaitEvent))
    (w : Waiter) : option Z :=
  match timeline with
  | [] => None
  | (ms, ev) :: rest =>
      let w' := deliver self ev w in
      if resolved w' then Some ms else awaitWait self rest w'
  end.

(** The runtime delivers events in the order of their dates, and an
    armed timer fires when its delay has elapsed. *)
Definition notAfter (a b : Z * WaitEvent) : Prop := a.1 ≤ b.1.

#[global] Instance notAfter_trans : Transitive notAfter.
Proof. intros a b c. unfold notAfter. lia. Qed.

Definition chronological (timeline : list (Z * WaitEvent)) : Prop :=
  Sorted notAfter timeline.

Definition timerFires (timeline : list (Z * WaitEvent)) : Prop :=
  (WAIT_TIMEOUT_MS, TimerFired) ∈ timeline.

Section WithCollaborators.
(** The parsed-JSON values and the two decoders of [processData]. *)
Variable Json : Type.
Variable bufferToString : Buffer → string.
Variable JSON_parse : string → JsError + Json.

Context {S D : Type} `{!Backend S} `{!Downloader D}.

(** The three optional callbacks given to the constructor. *)
Record Callbacks : Type := mkCallbacks {
  processRaw : option (Buffer → string → CallbackRun);
  processString : option (string → string → CallbackRun);
  processJson : option (Json → string → CallbackRun)
}.

(** The mutable fields, with the two shared objects the processor
    holds a reference to. [emitted] logs the processor's own events. *)
Record t : Type := mk {
  database : Database.t S;
  downloader : D;
  pendingJobs : list ProcessorJob.t;
  currentlyProcessingUrls : gset string;
  emitted : list ProcessorEvent
}.

Definition withDatabase (db : Database.t S) (this : t) : t :=
  mk db (downloader this) (pendingJobs this)
     (currentlyProcessingUrls this) (emitted this).

(** [add(...urls)]: the rest arguments go to the database as one array;
    the processor itself is returned for chaining. *)
Definition add (p : Processor.t) (urls : list string) (this : t) : t :=
  withDatabase (Database.add (inr urls) p (database this)) this.

(** Running one callback against the database: its [add] calls land in
    the pending buffer. *)
Definition runCallback (run : CallbackRun) (db : Database.t S)
    : option JsError * Database.t S :=
  (thrown run,
   foldl (λ acc a, Database.add (inr a.1) a.2 acc) db (adds run)).

(** [processData(url, data)]: the configured callbacks in turn, the
    first error ends the call. *)
Definition processData (cbs : Callbacks) (url : string) (data : Buffer)
    (db : Database.t S) : option JsError * Database.t S :=
  let r1 := match processRaw cbs with
            | Some f => runCallback (f data url) db
            | None => (None, db)
            end in
  match r1.1 with
  | Some e => (Some e, r1.2)
  | None =>
      let r2 := match processString cbs with
                | Some f => runCallback (f (bufferToString data) url) r1.2
                | None => (None, r1.2)
                end in
      match r2.1 with
      | Some e => (Some e, r2.2)
      | None =>
          match processJson cbs with
          | Some f =>
              match JSON_parse (bufferToString data) with
              | inl e => (Some e, r2.2)
              | inr json => runCallback (f json url) r2.2
              end
          | None => (None, r2.2)
          end
      end
  end.

(** The [finally] block of [processJob]. The event carries the job object
    itself; [job] stands for it with the fields read at entry. Its url and
    processor are what a listener sees; the other fields of that object
    may have been assigned by [update] in the meantime, on a store that
    hands out its own rows. *)
Definition finallyDone (job : ProcessorJob.t) (this : t) : t :=
  mk (database this) (downloader this) (pendingJobs this)
     (currentlyProcessingUrls this ∖ {[ProcessorJob.url job]})
     (emitted this ++ [JOB_PROCESSED job]).

(** The job object handed to [update] after the callbacks resolved. *)
Definition successUpdate (p : Processor.t) (job : ProcessorJob.t) (now : Z)
    : ProcessorJob.t :=
  ProcessorJob.mk (ProcessorJob.url job) (Processor.version p) 1 now
                  (Processor.name p) None.

(** The job object handed to [update] in the second [catch]. *)
Definition failureUpdate (p : Processor.t) (job : ProcessorJob.t) (now : Z)
    : ProcessorJob.t :=
  ProcessorJob.mk (ProcessorJob.url job) (Processor.version p)
                  (ProcessorJob.attempt job + 1) now (Processor.name p) None.

(** The second [catch] block. *)
Definition processingFailed (p : Processor.t) (job : ProcessorJob.t)
    (rethrow : bool) (now : Z) (e : JsError) (this : t) : Completion * t :=
  if rethrow then (Thrown e, this)
  else match Database.update (failureUpdate p job now) (database this) with
       | inl e' => (Thrown e', this)
       | inr db => (Returned, withDatabase db this)
       end.

(** [processJob(job, rethrow)]. [job] holds the fields of the job
    object as [processJob] reads them. *)
Definition processJob (p : Processor.t) (cbs : Callbacks)
    (job : ProcessorJob.t) (rethrow : bool) (now : Z) (this : t)
    : Completion * t :=
  let this1 :=
    mk (database this) (downloader this) (pendingJobs this)
       ({[ProcessorJob.url job]} ∪ currentlyProcessingUrls this)
       (emitted this) in
  let dl := dl_download (ProcessorJob.url job) (downloader this1) in
  let this2 :=
    mk (database this1) dl.2 (pendingJobs this1)
       (currentlyProcessingUrls this1) (emitted this1) in
  let r :=
    match dl.1 with
    | inl e => if rethrow then (Thrown e, this2) else (Returned, this2)
    | inr data =>
        let pd := processData cbs (ProcessorJob.url job) data (database this2) in
        let this3 := withDatabase pd.2 this2 in
        match pd.1 with
        | Some e => processingFailed p job rethrow now e this3
        | None =>
            match Database.update (successUpdate p job now) (database this3) with
            | inr db => (Returned, withDatabase db this3)
            | inl e => processingFailed p job rethrow now e this3
            end
        end
    end in
  (r.1, finallyDone job r.2).

(** *** [getNextPendingJob]

    Between two polls other tasks run, so each turn of the [while] loop
    sees the shared database and the in-flight set as they are at that
    moment, and the events that arrive during its wait. *)
Record Round : Type := mkRound {
  databaseThen : Database.t S;
  inFlightThen : gset string;
  timeline : list (Z * WaitEvent)
}.

Inductive Acquisition : Type :=
  | Acquired (job : ProcessorJob.t) (rest : list ProcessorJob.t)
  | StillPolling
  | Blocked.

(** The [while (this.pendingJobs.length === 0)] loop, entered with an
    empty local batch at time [clock]; the second component lists the
    times at which [query] was called. *)
Fixpoint pollLoop (p : Processor.t) (rounds : list Round) (clock : Z)
    : Acquisition * list Z :=
  match rounds with
  | [] => (StillPolling, [])
  | r :: rounds' =>
      match Database.query (databaseThen r) p (inFlightThen r) clock with
      | job :: rest => (Acquired job rest, [clock])
      | [] =>
          match awaitWait p (timeline r) waiting with
          | None => (Blocked, [clock])
          | Some elapsed =>
              let k := pollLoop p rounds' (clock + elapsed) in
              (k.1, clock :: k.2)
          end
      end
  end.

(** The body run under the mutex: [shift()] from the local batch,
    refilled by [pollLoop] when it is empty. *)
Definition getNextPendingJob (p : Processor.t) (rounds : list Round)
    (clock : Z) (this : t) : Acquisition * list Z :=
  match pendingJobs this with
  | job :: rest => (Acquired job rest, [])
  | [] => pollLoop p rounds clock
  end.

End WithCollaborators.

#[global] Arguments t S D : clear implicits.
#[global] Arguments Round S : clear implicits.
End ScraperProcessor.

(** ** Fixtures used by the worked examples *)
Module Fixtures.

(** The stage of the scenarios: [maxAttempts = 3], a re-crawl interval of
    a hundred years. *)
Definition items : Processor.t :=
  Processor.mk 1 "items" 1 3153600000000 3.

Definition x1 : string := "http://x/1".

Definition emptyStore : Database.t InMemoryDatabase.t :=
  Database.mk [] (InMemoryDatabase.mk []) [] false.

(** A store holding the freshly added job of [x1]. *)
Definition oneJob (now : Z) : Database.t InMemoryDatabase.t :=
  Database.mk [] (InMemoryDatabase.mk [freshJob items now x1]) [] false.

Definition okBody : Buffer := ["{"%byte; "}"%byte].

(** A network that answers every request with [200 OK]. *)
Definition online : string → FetchResult :=
  λ _, FetchResponds 200 "OK" (inr okBody).

(** A network on which every connection is refused. *)
Definition offline : string → FetchResult :=
  λ _, FetchRejects (Error "ECONNREFUSED").

(** The cache after [x1] has been downloaded once. *)
Definition warmCache : ICache := cacheSet x1 okBody ∅.

Definition coldCache (network : string → FetchResult) : FetchDownloader.t :=
  FetchDownloader.mk ∅ network [].

(** Decoders: the payloads of the examples are never inspected. *)
Definition decode : Buffer → string := λ _, "{}".
Definition parse : string → JsError + unit := λ _, inr tt.

Definition accepting : ScraperProcessor.Callbacks unit :=
  ScraperProcessor.mkCallbacks unit None None
    (Some (λ _ _, mkRun [] None)).

Definition rejecting : ScraperProcessor.Callbacks unit :=
  ScraperProcessor.mkCallbacks unit None None
    (Some (λ _ _, mkRun [] (Some (Error "Invalid item")))).

Definition worker (db : Database.t InMemoryDatabase.t)
    (network : string → FetchResult)
    : ScraperProcessor.t InMemoryDatabase.t FetchDownloader.t :=
  ScraperProcessor.mk db (coldCache network) [] ∅ [].

Definition processJob :=
  ScraperProcessor.processJob unit decode parse
    (S := InMemoryDatabase.t) (D := FetchDownloader.t).

(** Another stage sharing the database. *)
Definition listings : Processor.t :=
  Processor.mk 2 "listings" 4 3153600000000 3.

(** Three turns of the acquisition loop of [items]: nothing is due and
    only [listings] is notified, so the timer ends the wait; nothing is
    due and [items] is notified after 250 ms; then a job is due. *)
Definition threeRounds : list (ScraperProcessor.Round InMemoryDatabase.t) :=
  [ ScraperProcessor.mkRound emptyStore ∅
      [(300, ScraperProcessor.Emitted (NEW_JOBS listings));
       (1000, ScraperProcessor.TimerFired)];
    ScraperProcessor.mkRound emptyStore ∅
      [(250, ScraperProcessor.Emitted (NEW_JOBS items));
       (1000, ScraperProcessor.TimerFired)];
    ScraperProcessor.mkRound (oneJob 1250) ∅
      [(1000, ScraperProcessor.TimerFired)] ].

(** Twenty-one due rows: one processed at time 50 under the previous
    version of the stage, followed by twenty added at time 10 and not
    attempted yet. *)
Definition crowded : list ProcessorJob.t :=
  ProcessorJob.mk "http://x/0" 0 1 50 "items" None
  :: ((λ i : nat, freshJob items 10 ("http://x/" +:+ pretty i)) <$> seq 1 20).

End Fixtures.

(** ** Properties of the in-memory store *)
Module InMemoryFacts.
Import InMemoryDatabase.

(** A job is returned exactly when it is stored for the stage, is due and
    is not in flight. *)
Lemma query_iff this p inFlight now job :
  job ∈ query this p inFlight now ↔
    job ∈ jobs this
    ∧ ProcessorJob.processor job = Processor.name p
    ∧ isDue p now job
    ∧ ProcessorJob.url job ∉ inFlight.
Proof.
  unfold query. rewrite !list_elem_of_filter. tauto.
Qed.

(** The result keeps the order of the store. *)
Lemma query_sublist this p inFlight now :
  query this p inFlight now `sublist_of` jobs this.
Proof.
  unfold query.
  etrans; [apply sublist_filter|].
  etrans; [apply sublist_filter|]. apply sublist_filter.
Qed.

Lemma batchInsertUrls_keeps P urls p now this :
  Exists P (jobs this) → Exists P (jobs (batchInsertUrls urls p now this)).
Proof. intros HE. simpl. apply Exists_app. by left. Qed.

Lemma batchInsertUrls_has urls p now this u :
  u ∈ urls →
  Exists (sameKey u (Processor.name p)) (jobs (batchInsertUrls urls p now this)).
Proof.
  intros Hu. simpl. apply Exists_app.
  destruct (decide (Exists (sameKey u (Processor.name p)) (jobs this))) as [HE|HE].
  - by left.
  - right. apply Exists_exists. exists (freshJob p now u). split.
    + apply list_elem_of_fmap. exists u. split; [done|].
      apply list_elem_of_filter. by split.
    + by split.
Qed.

(** Rows are only ever appended: the old rows are a prefix. *)
Lemma batchInsertUrls_prefix urls p now this :
  jobs this `prefix_of` jobs (batchInsertUrls urls p now this).
Proof. simpl. by apply prefix_app_r. Qed.

Lemma update_found job this i existing :
  list_find (sameKey (ProcessorJob.url job) (ProcessorJob.processor job))
            (jobs this) = Some (i, existing) →
  update job this = inr (mk (<[i := assign job existing]> (jobs this))).
Proof. intros Hf. unfold update. by rewrite Hf. Qed.

Lemma update_missing job this :
  ¬ Exists (sameKey (ProcessorJob.url job) (ProcessorJob.processor job)) (jobs this) →
  update job this = inl (notFound job).
Proof.
  intros Hno. unfold update.
  destruct (list_find _ _) as [[i existing]|] eqn:Hf; [|done].
  apply list_find_Some in Hf as (Hi & Hk & _).
  exfalso. apply Hno, Exists_exists. exists existing. split; [|done].
  by eapply list_elem_of_lookup_2.
Qed.

Lemma find_of_Exists u stage (l : list ProcessorJob.t) :
  Exists (sameKey u stage) l →
  ∃ i existing, list_find (sameKey u stage) l = Some (i, existing)
                ∧ ProcessorJob.url existing = u
                ∧ ProcessorJob.processor existing = stage.
Proof.
  intros HE. apply Exists_exists in HE as (x & Hx & Hk).
  destruct (list_find (sameKey u stage) l) as [[i existing]|] eqn:Hf.
  - exists i, existing. split; [done|].
    apply list_find_Some in Hf as (_ & [? ?] & _). done.
  - exfalso. eapply list_find_None in Hf.
    rewrite Forall_forall in Hf. by apply (Hf x).
Qed.

End InMemoryFacts.

(** ** Properties of the pending buffer *)
Module DatabaseFacts.
Import Database.

Section AnyBackend.
Context {S : Type} `{!Backend S}.

Lemma flush_fold now (m : list (Processor.t * list string)) (st : S) evs :
  (foldl (λ (acc : S * list DatabaseEvent) (entry : Processor.t * list string),
            match entry.2 with
            | [] => acc
            | _ => (db_batchInsertUrls entry.2 entry.1 now acc.1,
                    acc.2 ++ [NEW_JOBS entry.1])
            end) (st, evs) m).2
  = evs ++ (NEW_JOBS <$> notified m).
Proof.
  revert st evs. induction m as [|[q l] m IH]; intros st evs.
  - simpl. by rewrite app_nil_r.
  - unfold notified in *. rewrite filter_cons.
    destruct l as [|u l].
    + rewrite decide_False by (simpl; congruence). apply IH.
    + rewrite decide_True by done. cbn [foldl snd fst].
      rewrite IH, fmap_cons. cbn [fst]. by rewrite <- app_assoc.
Qed.

(** The debounced flush raises one [NEW_JOBS] per processor that had
    something pending. *)
Lemma flush_emitted now (db : t S) :
  emitted (insertManyUrlsWrapper now db)
  = emitted db ++ (NEW_JOBS <$> notified (pendingUrls db)).
Proof. unfold insertManyUrlsWrapper. simpl. apply flush_fold. Qed.

Lemma flush_nothing_pending now (db : t S) :
  pendingUrls db = [] →
  emitted (insertManyUrlsWrapper now db) = emitted db.
Proof. intros Hp. rewrite flush_emitted, Hp. simpl. by rewrite app_nil_r. Qed.
End AnyBackend.

Lemma close_fold now (m : list (Processor.t * list string))
    (st : InMemoryDatabase.t) p urls u :
  (Exists (sameKey u (Processor.name p)) (InMemoryDatabase.jobs st)
   ∨ ((p, urls) ∈ m ∧ u ∈ urls)) →
  Exists (sameKey u (Processor.name p))
    (InMemoryDatabase.jobs
       (foldl (λ (acc : InMemoryDatabase.t) (entry : Processor.t * list string),
                 match entry.2 with
                 | [] => acc
                 | _ => db_batchInsertUrls entry.2 entry.1 now acc
                 end) st m)).
Proof.
  revert st. induction m as [|[q l] m IH]; intros st [HE|[Hin Hu]]; simpl.
  - done.
  - by apply elem_of_nil in Hin.
  - apply IH. left. destruct l; [done|].
    by apply InMemoryFacts.batchInsertUrls_keeps.
  - apply elem_of_cons in Hin as [Heq|Hin].
    + assert (q = p ∧ l = urls) as [-> ->] by (by injection Heq).
      apply IH. left.
      destruct urls as [|v vs]; [by apply elem_of_nil in Hu|].
      by apply InMemoryFacts.batchInsertUrls_has.
    + apply IH. by right.
Qed.

(** With no URL repeated in the batch, insertion keeps the keys of the
    in-memory store unique. *)
Lemma batchInsertUrls_unique urls p now this :
  NoDup (keyOf <$> InMemoryDatabase.jobs this) →
  NoDup urls →
  NoDup (keyOf <$> InMemoryDatabase.jobs
                     (InMemoryDatabase.batchInsertUrls urls p now this)).
Proof.
  intros Hjobs Hurls. simpl. rewrite fmap_app. apply NoDup_app.
  split; [done|]. split.
  - intros k Hold Hnew.
    apply list_elem_of_fmap in Hnew as (j & -> & Hj).
    apply list_elem_of_fmap in Hj as (u & -> & Hu).
    apply list_elem_of_filter in Hu as [Hfresh _].
    apply list_elem_of_fmap in Hold as (j' & Hk & Hj').
    apply Hfresh, Exists_exists. exists j'. split; [done|].
    unfold keyOf in Hk. simpl in Hk. injection Hk as Hu Hp. by split.
  - rewrite <- list_fmap_compose.
    apply NoDup_fmap_2.
    + intros u v Huv. unfold keyOf in Huv. simpl in Huv. by injection Huv.
    + by apply NoDup_filter.
Qed.

End DatabaseFacts.

(** ** Uniqueness of (stage, url) *)

(** C1. Two [add] calls for the same URL within one debounce window leave
    the URL twice in the pending array of the stage ([add] removes no
    repeats), and the flush then appends two rows with the same key to the
    in-memory store: the filter of [batchInsertUrls] only looks at rows
    stored before the batch. *)
Theorem add_repeated_url_inserted_twice (p : Processor.t) (u : string) (now : Z) :
  let db := Database.add (inl u) p (Database.add (inl u) p Fixtures.emptyStore) in
  Database.pendingUrls db = [(p, [u; u])]
  ∧ InMemoryDatabase.jobs (Database.store (Database.insertManyUrlsWrapper now db))
    = [freshJob p now u; freshJob p now u].
Proof.
  cbn. rewrite decide_True by done. split; reflexivity.
Qed.

(** ** [close] *)

(** C10. After [close] the pending buffer is empty and every URL that was
    pending has a row for its stage in the in-memory store; [close] emits
    nothing, and the debounce timer firing afterwards finds nothing to
    announce. [NEW_JOBS] comes from the debounced flush only, once per
    processor that had URLs pending. *)
Theorem close_flushes_without_notification
    (now : Z) (db : Database.t InMemoryDatabase.t) :
  let closed := Database.close now db in
  Database.pendingUrls closed = []
  ∧ (∀ p urls u,
       (p, urls) ∈ Database.pendingUrls db → u ∈ urls →
       Exists (sameKey u (Processor.name p))
              (InMemoryDatabase.jobs (Database.store closed)))
  ∧ Database.emitted closed = Database.emitted db
  ∧ (∀ later,
       Database.emitted (Database.insertManyUrlsWrapper later closed)
       = Database.emitted db)
  ∧ Database.emitted (Database.insertManyUrlsWrapper now db)
    = Database.emitted db
      ++ (NEW_JOBS <$> Database.notified (Database.pendingUrls db)).
Proof.
  intros closed. split; [reflexivity|]. split; [|split; [reflexivity|split]].
  - intros p urls u Hin Hu.
    apply (DatabaseFacts.close_fold now _ _ p urls u). right. by split.
  - intros later. by rewrite DatabaseFacts.flush_nothing_pending.
  - apply DatabaseFacts.flush_emitted.
Qed.

(** Two URLs pending for [items], then [close] at time 7. *)
Lemma close_flushes_without_notification_witness :
  let db := Database.add (inr [Fixtures.x1; "http://x/2"]) Fixtures.items
              Fixtures.emptyStore in
  let closed := Database.close 7 db in
  Database.pendingUrls closed = []
  ∧ Exists (sameKey "http://x/2" "items")
           (InMemoryDatabase.jobs (Database.store closed))
  ∧ Database.emitted closed = [].
Proof.
  pose proof (close_flushes_without_notification 7
    (Database.add (inr [Fixtures.x1; "http://x/2"]) Fixtures.items
       Fixtures.emptyStore)) as (Hp & Hin & He & _).
  split; [exact Hp|]. split; [|exact He].
  apply (Hin Fixtures.items [Fixtures.x1; "http://x/2"] "http://x/2").
  - vm_compute. apply list_elem_of_here.
  - apply list_elem_of_further, list_elem_of_here.
Defined.

(** ** Outcome reports of [processJob] *)
Module ProcessorFacts.
Import ScraperProcessor.

Section Generic.
Variable Json : Type.
Variable bufferToString : Buffer → string.
Variable JSON_parse : string → JsError + Json.
Context {S D : Type} `{!Backend S} `{!Downloader D}.

Local Arguments runCallback : simpl never.

Lemma runCallback_store (run : CallbackRun) (db : Database.t S) :
  Database.store (runCallback run db).2 = Database.store db.
Proof.
  unfold runCallback. cbn [snd]. generalize db.
  induction (adds run) as [|a l IH]; intros db'; simpl; [done|].
  by rewrite IH.
Qed.

(** Callbacks reach the database through [add] only: the stored rows
    are as they were when [processData] returns. *)
Lemma processData_store cbs url data (db : Database.t S) :
  Database.store (processData Json bufferToString JSON_parse cbs url data db).2
  = Database.store db.
Proof.
  unfold processData.
  repeat match goal with
         | |- context [match ?x with _ => _ end] => destruct x eqn:?
         end;
    cbn [fst snd]; by rewrite ?runCallback_store.
Qed.

(** A failed download without [rethrow]: [processJob] returns, and the
    database it leaves is the one it found. *)
Lemma processJob_download_failed p cbs job now (this : t S D) e d' :
  dl_download (ProcessorJob.url job) (downloader this) = (inl e, d') →
  processJob Json bufferToString JSON_parse p cbs job false now this
  = (Returned,
     mk (database this) d' (pendingJobs this)
        (({[ProcessorJob.url job]} ∪ currentlyProcessingUrls this)
           ∖ {[ProcessorJob.url job]})
        (emitted this ++ [JOB_PROCESSED job])).
Proof. intros Hdl. unfold processJob. simpl. by rewrite Hdl. Qed.

(** A callback failure without [rethrow], on a row the store has. *)
Lemma processJob_callbacks_failed p cbs job now (this : t S D)
    data d' e db1 db2 :
  dl_download (ProcessorJob.url job) (downloader this) = (inr data, d') →
  processData Json bufferToString JSON_parse cbs (ProcessorJob.url job) data
    (database this) = (Some e, db1) →
  Database.update (failureUpdate p job now) db1 = inr db2 →
  processJob Json bufferToString JSON_parse p cbs job false now this
  = (Returned,
     mk db2 d' (pendingJobs this)
        (({[ProcessorJob.url job]} ∪ currentlyProcessingUrls this)
           ∖ {[ProcessorJob.url job]})
        (emitted this ++ [JOB_PROCESSED job])).
Proof.
  intros Hdl Hpd Hup. unfold processJob. cbn [database downloader].
  rewrite Hdl. cbn [fst snd]. rewrite Hpd. cbn [fst snd].
  unfold processingFailed, withDatabase. cbn [database].
  by rewrite Hup.
Qed.

(** Download and callbacks succeeded, on a row the store has. *)
Lemma processJob_succeeded p cbs job rethrow now (this : t S D)
    data d' db1 db2 :
  dl_download (ProcessorJob.url job) (downloader this) = (inr data, d') →
  processData Json bufferToString JSON_parse cbs (ProcessorJob.url job) data
    (database this) = (None, db1) →
  Database.update (successUpdate p job now) db1 = inr db2 →
  processJob Json bufferToString JSON_parse p cbs job rethrow now this
  = (Returned,
     mk db2 d' (pendingJobs this)
        (({[ProcessorJob.url job]} ∪ currentlyProcessingUrls this)
           ∖ {[ProcessorJob.url job]})
        (emitted this ++ [JOB_PROCESSED job])).
Proof.
  intros Hdl Hpd Hup. unfold processJob. cbn [database downloader].
  rewrite Hdl. cbn [fst snd]. rewrite Hpd. cbn [fst snd].
  unfold withDatabase. cbn [database].
  by rewrite Hup.
Qed.
End Generic.

End ProcessorFacts.

(** C2. A job whose download fails, with [rethrow] off: [processJob]
    returns normally, so the worker goes on to its next job, but no
    [update] reaches the store. The row keeps [attempt = 0] and no error,
    and the very next [query] hands the same job out again. *)
Theorem download_failure_not_recorded (now later : Z) :
  let job := freshJob Fixtures.items now Fixtures.x1 in
  let before := Fixtures.worker (Fixtures.oneJob now) Fixtures.offline in
  let r := Fixtures.processJob Fixtures.items Fixtures.accepting job false later before in
  r.1 = Returned
  ∧ Database.store (ScraperProcessor.database r.2) = InMemoryDatabase.mk [job]
  ∧ Database.query (ScraperProcessor.database r.2) Fixtures.items
      (ScraperProcessor.currentlyProcessingUrls r.2) later = [job].
Proof.
  cbv zeta. unfold Fixtures.processJob.
  rewrite (ProcessorFacts.processJob_download_failed unit Fixtures.decode
             Fixtures.parse Fixtures.items Fixtures.accepting _ later _
             (Error "ECONNREFUSED") (FetchDownloader.mk ∅ Fixtures.offline
                [CacheGet Fixtures.x1; SemaphoreAcquire; FetchCall Fixtures.x1;
                 SemaphoreRelease])) by reflexivity.
  split; [reflexivity|]. split; [reflexivity|].
  unfold Database.query. simpl. unfold InMemoryDatabase.query. simpl.
  rewrite !filter_cons, !filter_nil.
  rewrite decide_True by done.
  rewrite filter_cons, filter_nil.
  rewrite (decide_True (P := InMemoryDatabase.isDue _ _ _)) by (by left).
  rewrite filter_cons, filter_nil.
  rewrite decide_True; [done|]. simpl.
  intros [_ Hout]%elem_of_difference. by apply Hout, elem_of_singleton.
Qed.

(** C3. A job whose processing callback throws, with [rethrow] off: the
    job object handed to [update] carries [attempt + 1] and the new date
    but no [error] key, so the row's [error] is assigned [undefined]. The
    failure description is never stored, and the failed job is not due
    again at that moment. *)
Theorem processing_failure_stores_no_error (now later : Z) :
  let job := freshJob Fixtures.items now Fixtures.x1 in
  let before := Fixtures.worker (Fixtures.oneJob now) Fixtures.online in
  let r := Fixtures.processJob Fixtures.items Fixtures.rejecting job false later before in
  r.1 = Returned
  ∧ Database.store (ScraperProcessor.database r.2)
    = InMemoryDatabase.mk [ProcessorJob.mk Fixtures.x1 1 1 later "items" None]
  ∧ Database.query (ScraperProcessor.database r.2) Fixtures.items
      (ScraperProcessor.currentlyProcessingUrls r.2) later = [].
Proof.
  cbv zeta. unfold Fixtures.processJob.
  rewrite (ProcessorFacts.processJob_callbacks_failed unit Fixtures.decode
             Fixtures.parse Fixtures.items Fixtures.rejecting _ later _
             Fixtures.okBody
             (FetchDownloader.mk (Fixtures.warmCache)
                Fixtures.online
                [CacheGet Fixtures.x1; SemaphoreAcquire; FetchCall Fixtures.x1;
                 CacheSet Fixtures.x1 Fixtures.okBody; SemaphoreRelease])
             (Error "Invalid item") (Fixtures.oneJob now)
             (Database.mk []
                (InMemoryDatabase.mk
                   [ProcessorJob.mk Fixtures.x1 1 1 later "items" None])
                [] false)) by reflexivity.
  split; [reflexivity|]. split; [reflexivity|].
  unfold Database.query. cbn [db_query InMemoryDatabase.backend].
  apply elem_of_nil_inv. intros j Hj.
  apply InMemoryFacts.query_iff in Hj as (Hin & _ & Hdue & _).
  cbn in Hin. apply list_elem_of_singleton in Hin as ->.
  unfold InMemoryDatabase.isDue, truthy in Hdue. cbn in Hdue.
  destruct Hdue as [?|[?|[[[] _]|?]]]; lia.
Qed.

(** C7. When the download and every configured callback succeed on a job
    whose row is in the in-memory store, [processJob] returns and the row
    found for (url, stage) is rewritten with [attempt = 1], the stage's
    current version, the new date and no error, its url and stage being
    kept; no other row changes. *)
Theorem success_resets_job {D : Type} `{!Downloader D} (Json : Type)
    (bufferToString : Buffer → string) (JSON_parse : string → JsError + Json)
    (p : Processor.t) (cbs : ScraperProcessor.Callbacks Json)
    (job : ProcessorJob.t) (rethrow : bool) (now : Z)
    (this : ScraperProcessor.t InMemoryDatabase.t D) (data : Buffer) (d' : D) :
  dl_download (ProcessorJob.url job) (ScraperProcessor.downloader this)
    = (inr data, d') →
  (ScraperProcessor.processData Json bufferToString JSON_parse cbs
     (ProcessorJob.url job) data (ScraperProcessor.database this)).1 = None →
  Exists (sameKey (ProcessorJob.url job) (Processor.name p))
    (InMemoryDatabase.jobs (Database.store (ScraperProcessor.database this))) →
  let before :=
    InMemoryDatabase.jobs (Database.store (ScraperProcessor.database this)) in
  let r := ScraperProcessor.processJob Json bufferToString JSON_parse
             p cbs job rethrow now this in
  r.1 = Returned
  ∧ ∃ i existing,
      list_find (sameKey (ProcessorJob.url job) (Processor.name p)) before
        = Some (i, existing)
      ∧ ProcessorJob.url existing = ProcessorJob.url job
      ∧ ProcessorJob.processor existing = Processor.name p
      ∧ InMemoryDatabase.jobs (Database.store (ScraperProcessor.database r.2))
        = <[i := ProcessorJob.mk (ProcessorJob.url existing) (Processor.version p)
                   1 now (ProcessorJob.processor existing) None]> before.
Proof.
  intros Hdl Hpd Hrow before r.
  destruct (ScraperProcessor.processData Json bufferToString JSON_parse cbs
              (ProcessorJob.url job) data (ScraperProcessor.database this))
    as [res db1] eqn:Epd.
  simpl in Hpd. subst res.
  assert (Hstore : Database.store db1
                   = Database.store (ScraperProcessor.database this)).
  { pose proof (ProcessorFacts.processData_store Json bufferToString JSON_parse
                  cbs (ProcessorJob.url job) data
                  (ScraperProcessor.database this)) as Hs.
    by rewrite Epd in Hs. }
  destruct (InMemoryFacts.find_of_Exists _ _ _ Hrow)
    as (i & existing & Hfind & Hurl & Hstage).
  assert (Hup : Database.update
                  (ScraperProcessor.successUpdate p job now) db1
                = inr (Database.mk (Database.pendingUrls db1)
                         (InMemoryDatabase.mk
                            (<[i := InMemoryDatabase.assign
                                      (ScraperProcessor.successUpdate p job now)
                                      existing]> before))
                         (Database.emitted db1) (Database.flushArmed db1))).
  { unfold Database.update. cbn [db_update InMemoryDatabase.backend].
    rewrite (InMemoryFacts.update_found _ _ i existing).
    - by rewrite Hstore.
    - by rewrite Hstore. }
  subst r.
  rewrite (ProcessorFacts.processJob_succeeded Json bufferToString JSON_parse
             p cbs job rethrow now this data d' db1 _ Hdl Epd Hup).
  split; [done|]. exists i, existing. done.
Qed.

(** The fresh job of [x1], downloaded and accepted at time 5. *)
Lemma success_resets_job_witness :
  let job := freshJob Fixtures.items 0 Fixtures.x1 in
  let r := Fixtures.processJob Fixtures.items Fixtures.accepting job false 5
             (Fixtures.worker (Fixtures.oneJob 0) Fixtures.online) in
  r.1 = Returned
  ∧ ∃ i existing,
      list_find (sameKey Fixtures.x1 "items") [job] = Some (i, existing)
      ∧ ProcessorJob.url existing = Fixtures.x1
      ∧ ProcessorJob.processor existing = "items"
      ∧ InMemoryDatabase.jobs (Database.store (ScraperProcessor.database r.2))
        = <[i := ProcessorJob.mk (ProcessorJob.url existing) 1 1 5
                   (ProcessorJob.processor existing) None]> [job].
Proof.
  apply (success_resets_job unit Fixtures.decode Fixtures.parse Fixtures.items
           Fixtures.accepting (freshJob Fixtures.items 0 Fixtures.x1) false 5
           (Fixtures.worker (Fixtures.oneJob 0) Fixtures.online)
           Fixtures.okBody
           (FetchDownloader.mk (Fixtures.warmCache)
              Fixtures.online
              [CacheGet Fixtures.x1; SemaphoreAcquire; FetchCall Fixtures.x1;
               CacheSet Fixtures.x1 Fixtures.okBody; SemaphoreRelease])).
  - reflexivity.
  - reflexivity.
  - apply Exists_cons_hd. split; reflexivity.
Defined.

(** ** Properties of the SQL store *)
Module BunSqlFacts.
Import BunSqlDatabase.

Lemma Sorted_take {A : Type} (R : relation A) (n : nat) (l : list A) :
  Sorted R l → Sorted R (take n l).
Proof.
  intros Hs. revert n.
  induction Hs as [|x l Hs IH Hhd]; intros [|n]; simpl; try constructor.
  - apply IH.
  - destruct Hhd; destruct n; simpl; by constructor.
Qed.

Lemma query_length this p now : (length (query this p now) ≤ 20)%nat.
Proof. unfold query. rewrite length_take. lia. Qed.

Lemma query_sorted this p now : Sorted dateAsc (query this p now).
Proof. unfold query. apply Sorted_take, Sorted_merge_sort, _. Qed.

(** Only rows that satisfy the [WHERE] clause come back. *)
Lemma query_due this p now row :
  row ∈ query this p now → row ∈ rows this ∧ whereDue p now row.
Proof.
  unfold query. intros Hin.
  apply (subseteq_take 20) in Hin.
  rewrite merge_sort_Permutation in Hin.
  apply list_elem_of_filter in Hin. tauto.
Qed.

(** An [UPDATE] whose [WHERE] matches no row changes nothing. *)
Lemma update_unmatched job this :
  ¬ Exists (sameKey (ProcessorJob.url job) (ProcessorJob.processor job)) (rows this) →
  update job this = inr this.
Proof.
  intros Hno. unfold update. destruct this as [tbl]. simpl in *.
  do 2 f_equal. induction tbl as [|row tbl IH]; simpl; [done|].
  rewrite decide_False.
  - f_equal. apply IH. intros HE. apply Hno. by right.
  - intros Hk. apply Hno. by left.
Qed.

End BunSqlFacts.

(** ** The due-job query *)

(** C4. The SQL back end declares [query(processor)] only: the in-flight
    set its caller passes is dropped, so a due job whose URL is being
    processed is returned again. The in-memory back end withholds it. *)
Theorem sql_query_returns_in_flight_job (now : Z) :
  let job := freshJob Fixtures.items now Fixtures.x1 in
  (∀ this p inFlight t,
     db_query (S := BunSqlDatabase.t) this p inFlight t
     = BunSqlDatabase.query this p t)
  ∧ db_query (BunSqlDatabase.mk [job]) Fixtures.items {[Fixtures.x1]} now = [job]
  ∧ db_query (InMemoryDatabase.mk [job]) Fixtures.items {[Fixtures.x1]} now = [].
Proof.
  cbv zeta. split; [reflexivity|]. split.
  - cbn [db_query BunSqlDatabase.backend]. unfold BunSqlDatabase.query.
    cbn [BunSqlDatabase.rows].
    rewrite filter_cons, filter_nil, decide_True; [reflexivity|].
    split; [reflexivity|]. by left.
  - cbn [db_query InMemoryDatabase.backend].
    apply elem_of_nil_inv. intros j Hj.
    apply InMemoryFacts.query_iff in Hj as (Hin & _ & _ & Hfl).
    cbn in Hin. apply list_elem_of_singleton in Hin as ->.
    apply Hfl. by apply elem_of_singleton.
Qed.

(** C5. On the in-memory back end [query] neither bounds nor orders the
    batch: with twenty-one due rows of which the first stored is the most
    recently dated, it returns all twenty-one in the order of the store.
    The SQL back end does what the claim says, on every table: at most
    twenty rows, oldest date first. *)
Lemma in_memory_query_unbounded_unordered :
  let r := InMemoryDatabase.query (InMemoryDatabase.mk Fixtures.crowded)
             Fixtures.items ∅ 100 in
  r = Fixtures.crowded
  ∧ ¬ (length r ≤ 20)%nat
  ∧ ¬ Sorted BunSqlDatabase.dateAsc r
  ∧ (∀ this p now,
       (length (BunSqlDatabase.query this p now) ≤ 20)%nat
       ∧ Sorted BunSqlDatabase.dateAsc (BunSqlDatabase.query this p now)).
Proof.
  cbv zeta.
  assert (Hr : InMemoryDatabase.query (InMemoryDatabase.mk Fixtures.crowded)
                 Fixtures.items ∅ 100 = Fixtures.crowded)
    by (vm_compute; reflexivity).
  rewrite Hr. split; [reflexivity|]. split; [|split].
  - vm_compute. lia.
  - unfold Fixtures.crowded. intros HS.
    apply Sorted_inv in HS as [_ Hhd]. cbn in Hhd.
    apply HdRel_inv in Hhd. unfold BunSqlDatabase.dateAsc in Hhd.
    cbn in Hhd. lia.
  - intros this p now. split.
    + apply BunSqlFacts.query_length.
    + apply BunSqlFacts.query_sorted.
Qed.

(** ** Outcome reports for a missing row *)

(** C6. On the SQL back end an outcome report for a (url, stage) pair
    that has no row is an [UPDATE] matching nothing: it never fails, and
    here it leaves the empty table empty. The in-memory back end throws
    its not-found error on the same report. *)
Theorem sql_update_of_missing_row_succeeds (job : ProcessorJob.t) :
  (∀ this, ∃ this', BunSqlDatabase.update job this = inr this')
  ∧ BunSqlDatabase.update job (BunSqlDatabase.mk []) = inr (BunSqlDatabase.mk [])
  ∧ InMemoryDatabase.update job (InMemoryDatabase.mk [])
    = inl (InMemoryDatabase.notFound job).
Proof.
  split; [|split; reflexivity].
  intros this. by eexists.
Qed.

(** ** The downloader *)

(** C8. [download] answers from the cache without fetching when the URL
    is cached. Otherwise it fetches inside [semaphore.with]; a response
    with a 2xx status whose body arrives is stored in the cache before the
    slot is released and its bytes are returned; a rejected fetch, a
    non-2xx status or a body that fails to arrive ends in an error, with
    the cache as it was and the slot released. *)
Theorem download_cache_contract (url : string) (this : FetchDownloader.t) :
  (∀ cached,
     cacheGet url (FetchDownloader.cache this) = Some cached →
     FetchDownloader.download url this
     = (inr cached,
        FetchDownloader.mk (FetchDownloader.cache this)
          (FetchDownloader.network this)
          (FetchDownloader.effects this ++ [CacheGet url])))
  ∧ (cacheGet url (FetchDownloader.cache this) = None →
     ∀ status statusText buffer,
       FetchDownloader.network this url
         = FetchResponds status statusText (inr buffer) →
       200 ≤ status ≤ 299 →
       FetchDownloader.download url this
       = (inr buffer,
          FetchDownloader.mk (cacheSet url buffer (FetchDownloader.cache this))
            (FetchDownloader.network this)
            (FetchDownloader.effects this
               ++ [CacheGet url; SemaphoreAcquire; FetchCall url;
                   CacheSet url buffer; SemaphoreRelease])))
  ∧ (cacheGet url (FetchDownloader.cache this) = None →
     (∃ e, FetchDownloader.network this url = FetchRejects e)
     ∨ (∃ status statusText body,
          FetchDownloader.network this url = FetchResponds status statusText body
          ∧ (¬ 200 ≤ status ≤ 299 ∨ ∃ e, body = inl e)) →
     ∃ e,
       FetchDownloader.download url this
       = (inl e,
          FetchDownloader.mk (FetchDownloader.cache this)
            (FetchDownloader.network this)
            (FetchDownloader.effects this
               ++ [CacheGet url; SemaphoreAcquire; FetchCall url;
                   SemaphoreRelease]))).
Proof.
  unfold FetchDownloader.download, FetchDownloader.semaphoreWith,
    FetchDownloader.fetchAndStore, responseOk.
  split; [|split].
  - intros cached ->. reflexivity.
  - intros -> status statusText buffer -> Hok.
    by rewrite bool_decide_true.
  - intros -> [[e ->]|(status & statusText & body & -> & Hbad)].
    + by exists e.
    + destruct (decide (200 ≤ status ≤ 299)) as [Hok|Hko].
      * rewrite bool_decide_true by done.
        destruct Hbad as [?|[e ->]]; [done|]. by exists e.
      * rewrite bool_decide_false by done. by eexists.
Qed.

(** A hit on a warm cache, a miss answered with [200 OK], and a miss on
    a refused connection. *)
Lemma download_cache_contract_witness :
  FetchDownloader.download Fixtures.x1
    (FetchDownloader.mk Fixtures.warmCache Fixtures.offline [])
  = (inr Fixtures.okBody,
     FetchDownloader.mk Fixtures.warmCache Fixtures.offline
       [CacheGet Fixtures.x1])
  ∧ FetchDownloader.download Fixtures.x1 (Fixtures.coldCache Fixtures.online)
    = (inr Fixtures.okBody,
       FetchDownloader.mk (Fixtures.warmCache) Fixtures.online
         [CacheGet Fixtures.x1; SemaphoreAcquire; FetchCall Fixtures.x1;
          CacheSet Fixtures.x1 Fixtures.okBody; SemaphoreRelease])
  ∧ ∃ e,
      FetchDownloader.download Fixtures.x1 (Fixtures.coldCache Fixtures.offline)
      = (inl e,
         FetchDownloader.mk ∅ Fixtures.offline
           [CacheGet Fixtures.x1; SemaphoreAcquire; FetchCall Fixtures.x1;
            SemaphoreRelease]).
Proof.
  split; [|split].
  - exact (proj1 (download_cache_contract Fixtures.x1
                    (FetchDownloader.mk Fixtures.warmCache
                       Fixtures.offline [])) Fixtures.okBody eq_refl).
  - apply (proj1 (proj2 (download_cache_contract Fixtures.x1
                           (Fixtures.coldCache Fixtures.online)))
             eq_refl 200 "OK" Fixtures.okBody eq_refl).
    lia.
  - apply (proj2 (proj2 (download_cache_contract Fixtures.x1
                           (Fixtures.coldCache Fixtures.offline)))).
    + reflexivity.
    + left. by eexists.
Defined.

(** ** Waiting for work *)
Module WaitFacts.
Import ScraperProcessor.

(** A waiter that has not resolved is still fully armed: the only events
    that leave it unresolved are other processors' notifications. *)
Lemma deliver_waiting self ev :
  match ev with
  | TimerFired => resolved (deliver self ev waiting) = true
  | Emitted (NEW_JOBS p) =>
      if decide (p = self) then resolved (deliver self ev waiting) = true
      else deliver self ev waiting = waiting
  end.
Proof.
  destruct ev as [|[p]]; simpl; [done|].
  unfold finish. destruct (decide (p = self)) as [->|Hne].
  - by rewrite decide_False by (by intros ?).
  - by rewrite decide_True.
Qed.

(** The wait ends, at the timer or at the first notification for this
    processor, whichever is delivered first. *)
Lemma awaitWait_resolves self timeline :
  chronological timeline → timerFires timeline →
  ∃ ms, awaitWait self timeline waiting = Some ms
        ∧ ms ≤ WAIT_TIMEOUT_MS
        ∧ (∀ t, (t, Emitted (NEW_JOBS self)) ∈ timeline → ms ≤ t)
        ∧ ((ms, TimerFired) ∈ timeline
           ∨ (ms, Emitted (NEW_JOBS self)) ∈ timeline).
Proof.
  unfold chronological, timerFires. intros Hs Htimer.
  apply (Sorted_StronglySorted notAfter) in Hs. revert Hs Htimer.
  induction timeline as [|[ms0 ev] rest IH]; intros Hs Htimer.
  { by apply elem_of_nil in Htimer. }
  apply StronglySorted_inv in Hs as [Hrest Hhd].
  rewrite Forall_forall in Hhd.
  assert (Hlater : ∀ t e, (t, e) ∈ (ms0, ev) :: rest → ms0 ≤ t).
  { intros t e [Heq|Hin]%elem_of_cons.
    - injection Heq as -> _. lia.
    - by apply (Hhd (t, e)). }
  cbn [awaitWait].
  pose proof (deliver_waiting self ev) as Hd.
  destruct ev as [|[p]].
  - rewrite Hd. exists ms0. split; [done|]. split; [by eapply Hlater|].
    split; [by intros t Ht; eapply Hlater|]. left. apply list_elem_of_here.
  - destruct (decide (p = self)) as [->|Hne].
    + rewrite Hd. exists ms0. split; [done|]. split; [by eapply Hlater|].
      split; [by intros t Ht; eapply Hlater|]. right. apply list_elem_of_here.
    + rewrite Hd. cbn [resolved waiting].
      apply elem_of_cons in Htimer as [Heq|Htimer]; [done|].
      destruct (IH Hrest Htimer) as (ms & Hms & Hle & Hfirst & Hwhich).
      exists ms. split; [done|]. split; [done|]. split.
      * intros t [Heq|Hin]%elem_of_cons; [|by apply Hfirst].
        injection Heq as _ Hp. by destruct Hne.
      * destruct Hwhich; [left|right]; by apply list_elem_of_further.
Qed.

Section Loop.
Context {S : Type} `{!Backend S}.

(** The first poll of the loop happens at the time it is entered. *)
Lemma pollLoop_first p (rounds : list (Round S)) clock t :
  clock - t ≤ WAIT_TIMEOUT_MS →
  HdRel (λ t1 t2, t2 - t1 ≤ WAIT_TIMEOUT_MS) t (pollLoop p rounds clock).2.
Proof.
  intros Ht. destruct rounds as [|r rounds']; simpl; [constructor|].
  destruct (Database.query _ _ _ _); [|by constructor].
  destruct (awaitWait _ _ _); by constructor.
Qed.

Lemma pollLoop_bounded p (rounds : list (Round S)) clock :
  Forall (λ r, chronological (timeline r) ∧ timerFires (timeline r)) rounds →
  (pollLoop p rounds clock).1 ≠ Blocked
  ∧ Sorted (λ t1 t2, t2 - t1 ≤ WAIT_TIMEOUT_MS) (pollLoop p rounds clock).2
  ∧ ((pollLoop p rounds clock).1 = StillPolling →
     length (pollLoop p rounds clock).2 = length rounds).
Proof.
  intros Hrounds. revert clock.
  induction Hrounds as [|r rounds' [Hchron Htimer] _ IH]; intros clock.
  { simpl. repeat split; [done|constructor]. }
  cbn [pollLoop].
  destruct (Database.query _ _ _ _) as [|job rest].
  - destruct (awaitWait_resolves p _ Hchron Htimer)
      as (ms & -> & Hle & _).
    destruct (IH (clock + ms)) as (Hnb & Hsorted & Hlen).
    cbn [fst snd]. split; [done|]. split.
    + constructor; [done|]. apply pollLoop_first. lia.
    + intros Hstill. cbn [length]. by rewrite Hlen.
  - cbn [fst snd]. split; [done|]. split; [|done].
    repeat constructor.
Qed.
End Loop.

End WaitFacts.



(** * Further properties of the code *)

(** ** The pending buffer of [Database] *)
Module PendingFacts.
Import Database.

Lemma pendingGet_pushPending p urls m :
  pendingGet p (pushPending p urls m)
  = Some (default [] (pendingGet p m) ++ urls).
Proof.
  induction m as [|[q l] m IH]; simpl.
  - by rewrite decide_True.
  - destruct (decide (q = p)) as [->|Hne]; simpl.
    + by rewrite decide_True.
    + by rewrite decide_False.
Qed.

Lemma pendingGet_pushPending_ne p q urls m :
  q ≠ p → pendingGet q (pushPending p urls m) = pendingGet q m.
Proof.
  intros Hne. induction m as [|[r l] m IH]; simpl.
  - by rewrite decide_False by (by intros ->).
  - destruct (decide (r = p)) as [->|Hrp]; simpl.
    + by rewrite !decide_False by (by intros ->).
    + destruct (decide (r = q)); [done|apply IH].
Qed.

Lemma pushPending_app p a b m :
  pushPending p b (pushPending p a m) = pushPending p (a ++ b) m.
Proof.
  induction m as [|[q l] m IH]; simpl.
  - by rewrite decide_True.
  - destruct (decide (q = p)) as [->|Hne]; simpl.
    + rewrite decide_True by done. by rewrite <- app_assoc.
    + rewrite decide_False by done. by rewrite IH.
Qed.

(** The store that the two flushing loops leave. *)
Lemma flush_store {S : Type} `{!Backend S} now
    (m : list (Processor.t * list string)) (st : S) evs :
  (foldl (λ (acc : S * list DatabaseEvent) (entry : Processor.t * list string),
            match entry.2 with
            | [] => acc
            | _ => (db_batchInsertUrls entry.2 entry.1 now acc.1,
                    acc.2 ++ [NEW_JOBS entry.1])
            end) (st, evs) m).1
  = foldl (λ (acc : S) (entry : Processor.t * list string),
             match entry.2 with
             | [] => acc
             | _ => db_batchInsertUrls entry.2 entry.1 now acc
             end) st m.
Proof.
  revert st evs. induction m as [|[q l] m IH]; intros st evs; [done|].
  cbn [foldl]. destruct l as [|u l]; cbn [snd fst]; apply IH.
Qed.

Lemma close_unique now (m : list (Processor.t * list string))
    (st : InMemoryDatabase.t) :
  NoDup (keyOf <$> InMemoryDatabase.jobs st) →
  Forall (λ entry, NoDup entry.2) m →
  NoDup (keyOf <$> InMemoryDatabase.jobs
           (foldl (λ (acc : InMemoryDatabase.t) (entry : Processor.t * list string),
                     match entry.2 with
                     | [] => acc
                     | _ => db_batchInsertUrls entry.2 entry.1 now acc
                     end) st m)).
Proof.
  intros Hst Hm. revert st Hst.
  induction Hm as [|[q l] m Hl _ IH]; intros st Hst; [done|].
  cbn [foldl]. apply IH. destruct l as [|u l]; [done|].
  by apply DatabaseFacts.batchInsertUrls_unique.
Qed.

End PendingFacts.

(** X1. [add] appends what it is given to the pending array of the
    processor, creating the array when the processor has none and keeping
    repeats; the stored rows and the event log are not touched. *)
Theorem add_appends_to_pending {S : Type} (urls : string + list string)
    (p : Processor.t) (db : Database.t S) :
  Database.pendingGet p (Database.pendingUrls (Database.add urls p db))
  = Some (default [] (Database.pendingGet p (Database.pendingUrls db))
          ++ match urls with inl u => [u] | inr us => us end)
  ∧ Database.store (Database.add urls p db) = Database.store db
  ∧ Database.emitted (Database.add urls p db) = Database.emitted db.
Proof.
  split; [|done]. unfold Database.add. cbn [Database.pendingUrls].
  apply PendingFacts.pendingGet_pushPending.
Qed.

(** X2. [add] for one processor leaves the pending array of every other
    processor as it was. *)
Theorem add_leaves_other_processors {S : Type} (urls : string + list string)
    (p q : Processor.t) (db : Database.t S) :
  q ≠ p →
  Database.pendingGet q (Database.pendingUrls (Database.add urls p db))
  = Database.pendingGet q (Database.pendingUrls db).
Proof.
  intros Hne. unfold Database.add. cbn [Database.pendingUrls].
  by apply PendingFacts.pendingGet_pushPending_ne.
Qed.

(** [listings] has two URLs pending; [items] adds one. *)
Lemma add_leaves_other_processors_witness :
  Database.pendingGet Fixtures.listings
    (Database.pendingUrls
       (Database.add (inl Fixtures.x1) Fixtures.items
          (Database.add (inr ["a"; "b"]) Fixtures.listings Fixtures.emptyStore)))
  = Some ["a"; "b"].
Proof.
  rewrite (add_leaves_other_processors (inl Fixtures.x1) Fixtures.items
             Fixtures.listings) by (by intros [=]).
  reflexivity.
Defined.

(** X3. Two [add] calls for the same processor leave the database as one
    call with the two arrays concatenated, and a single string is added
    like the array that holds it. *)
Theorem add_twice_is_add_concatenated {S : Type} (a b : list string)
    (u : string) (p : Processor.t) (db : Database.t S) :
  Database.add (inr b) p (Database.add (inr a) p db)
  = Database.add (inr (a ++ b)) p db
  ∧ Database.add (inl u) p db = Database.add (inr [u]) p db.
Proof.
  split; [|done]. unfold Database.add. simpl.
  by rewrite PendingFacts.pushPending_app.
Qed.

(** X4. The debounced flush and [close] leave the same rows in the store
    and both empty the pending map, for every back end. *)
Theorem flush_and_close_store_agree {S : Type} `{!Backend S}
    (now : Z) (db : Database.t S) :
  Database.store (Database.insertManyUrlsWrapper now db)
  = Database.store (Database.close now db)
  ∧ Database.pendingUrls (Database.insertManyUrlsWrapper now db) = []
  ∧ Database.pendingUrls (Database.close now db) = [].
Proof.
  split; [|done]. unfold Database.insertManyUrlsWrapper, Database.close.
  cbn [Database.store]. apply PendingFacts.flush_store.
Qed.

(** X5. On the in-memory store, when the stored keys are unique and no
    pending array holds a URL twice, the keys are still unique after the
    debounced flush. *)
Theorem flush_keeps_keys_unique (now : Z) (db : Database.t InMemoryDatabase.t) :
  NoDup (keyOf <$> InMemoryDatabase.jobs (Database.store db)) →
  Forall (λ entry, NoDup entry.2) (Database.pendingUrls db) →
  NoDup (keyOf <$> InMemoryDatabase.jobs
           (Database.store (Database.insertManyUrlsWrapper now db))).
Proof.
  intros Hst Hm. unfold Database.insertManyUrlsWrapper. cbn [Database.store].
  rewrite PendingFacts.flush_store. by apply PendingFacts.close_unique.
Qed.

(** One stored job, two further URLs pending of which one is stored
    already. *)
Lemma flush_keeps_keys_unique_witness :
  NoDup (keyOf <$> InMemoryDatabase.jobs
           (Database.store
              (Database.insertManyUrlsWrapper 9
                 (Database.add (inr [Fixtures.x1; "http://x/2"]) Fixtures.items
                    (Fixtures.oneJob 0))))).
Proof.
  apply flush_keeps_keys_unique.
  - cbn. apply NoDup_singleton.
  - cbn. apply Forall_singleton. cbn.
    apply NoDup_cons. split; [|apply NoDup_singleton].
    intros [=]%list_elem_of_singleton.
Defined.

(** ** The in-memory store *)
Module InMemoryMore.
Import InMemoryDatabase.

Lemma filter_none {A : Type} (P : A → Prop) `{!∀ x, Decision (P x)} (l : list A) :
  Forall (λ x, ¬ P x) l → filter P l = [].
Proof.
  induction 1 as [|x l Hx _ IH]; [done|]. by rewrite filter_cons_False.
Qed.

(** The keys after an insertion: the old ones and one per URL given. *)
Lemma batchInsertUrls_keys urls p now this k :
  k ∈ keyOf <$> jobs (batchInsertUrls urls p now this) ↔
    k ∈ keyOf <$> jobs this ∨ ∃ u, u ∈ urls ∧ k = (u, Processor.name p).
Proof.
  split.
  - simpl. rewrite fmap_app, elem_of_app. intros [Hold|Hnew]; [by left|right].
    apply list_elem_of_fmap in Hnew as (j & -> & Hj).
    apply list_elem_of_fmap in Hj as (u & -> & Hu).
    apply list_elem_of_filter in Hu as [_ Hu]. by exists u.
  - intros [Hold|(u & Hu & ->)].
    + simpl. rewrite fmap_app, elem_of_app. by left.
    + pose proof (InMemoryFacts.batchInsertUrls_has urls p now this u Hu) as HE.
      apply Exists_exists in HE as (j & Hj & Hurl & Hstage).
      apply list_elem_of_fmap. exists j. split; [|done].
      unfold keyOf. by rewrite Hurl, Hstage.
Qed.

Lemma update_keys job this this' :
  update job this = inr this' →
  keyOf <$> jobs this' = keyOf <$> jobs this.
Proof.
  unfold update. intros Hup.
  destruct (list_find _ _) as [[i existing]|] eqn:Hf; [|done].
  injection Hup as <-. cbn [jobs].
  apply list_find_Some in Hf as (Hi & _ & _).
  rewrite list_fmap_insert. apply list_insert_id.
  rewrite list_lookup_fmap, Hi. done.
Qed.

End InMemoryMore.

(** X6. A URL a processor adds is not visible to [query] before the
    flush; once the debounced flush has run on the in-memory store, a URL
    that had no row for the stage is returned by [query] as a fresh job,
    at any later time, unless it is in flight. *)
Theorem added_url_is_due_after_flush {D : Type} (p : Processor.t)
    (urls : list string) (u : string) (now t : Z) (inFlight : gset string)
    (this : ScraperProcessor.t InMemoryDatabase.t D) :
  Database.pendingUrls (ScraperProcessor.database this) = [] →
  u ∈ urls →
  ¬ Exists (sameKey u (Processor.name p))
      (InMemoryDatabase.jobs (Database.store (ScraperProcessor.database this))) →
  u ∉ inFlight →
  let added := ScraperProcessor.database (ScraperProcessor.add p urls this) in
  Database.query added p inFlight t
  = Database.query (ScraperProcessor.database this) p inFlight t
  ∧ freshJob p now u
      ∈ Database.query (Database.insertManyUrlsWrapper now added) p inFlight t.
Proof.
  intros Hpending Hu Hnew Hfl added. split; [done|].
  subst added. unfold ScraperProcessor.add, ScraperProcessor.withDatabase.
  cbn [ScraperProcessor.database]. unfold Database.add. rewrite Hpending.
  unfold Database.insertManyUrlsWrapper, Database.query.
  cbn [Database.pendingUrls Database.store Database.pushPending foldl fst snd].
  destruct urls as [|v vs]; [by apply elem_of_nil in Hu|].
  cbn [fst snd db_query db_batchInsertUrls InMemoryDatabase.backend].
  apply InMemoryFacts.query_iff. split; [|split; [done|split; [by left|done]]].
  simpl. apply elem_of_app. right.
  apply list_elem_of_fmap. exists u. split; [done|].
  by apply list_elem_of_filter.
Qed.

(** [items] adds [x1] to an empty store; flushed at 3, queried at 8. *)
Lemma added_url_is_due_after_flush_witness :
  freshJob Fixtures.items 3 Fixtures.x1
    ∈ Database.query
        (Database.insertManyUrlsWrapper 3
           (ScraperProcessor.database
              (ScraperProcessor.add Fixtures.items [Fixtures.x1]
                 (Fixtures.worker Fixtures.emptyStore Fixtures.offline))))
        Fixtures.items ∅ 8.
Proof.
  apply (added_url_is_due_after_flush Fixtures.items [Fixtures.x1] Fixtures.x1
           3 8 ∅ (Fixtures.worker Fixtures.emptyStore Fixtures.offline)).
  - reflexivity.
  - apply list_elem_of_here.
  - cbn. by intros ?%Exists_nil.
  - apply not_elem_of_empty.
Defined.

(** X7. Inserting a batch into the in-memory store a second time adds
    nothing: every URL of the batch has its row by then. *)
Theorem in_memory_insert_idempotent (urls : list string) (p : Processor.t)
    (now later : Z) (this : InMemoryDatabase.t) :
  InMemoryDatabase.batchInsertUrls urls p later
    (InMemoryDatabase.batchInsertUrls urls p now this)
  = InMemoryDatabase.batchInsertUrls urls p now this.
Proof.
  unfold InMemoryDatabase.batchInsertUrls at 1.
  rewrite InMemoryMore.filter_none.
  - simpl. by rewrite app_nil_r.
  - apply Forall_forall. intros u Hu Hno. apply Hno.
    by apply InMemoryFacts.batchInsertUrls_has.
Qed.

(** X8. After an insertion the in-memory store holds a row for a (url,
    stage) pair exactly when it held one before or the URL is in the batch
    of that stage; the rows it held are still there, unchanged and in
    their places. *)
Theorem in_memory_insert_keys (urls : list string) (p : Processor.t) (now : Z)
    (this : InMemoryDatabase.t) :
  (∀ k,
     k ∈ keyOf <$> InMemoryDatabase.jobs
                     (InMemoryDatabase.batchInsertUrls urls p now this) ↔
       k ∈ keyOf <$> InMemoryDatabase.jobs this
       ∨ ∃ u, u ∈ urls ∧ k = (u, Processor.name p))
  ∧ InMemoryDatabase.jobs this
      `prefix_of` InMemoryDatabase.jobs
                    (InMemoryDatabase.batchInsertUrls urls p now this).
Proof.
  split.
  - intros k. apply InMemoryMore.batchInsertUrls_keys.
  - apply InMemoryFacts.batchInsertUrls_prefix.
Qed.

(** X9. An [update] that succeeds on the in-memory store changes no key
    and no position: the list of (url, stage) pairs is the same before
    and after, so no row is added, removed or moved. *)
Theorem in_memory_update_keeps_keys (job : ProcessorJob.t)
    (this this' : InMemoryDatabase.t) :
  InMemoryDatabase.update job this = inr this' →
  keyOf <$> InMemoryDatabase.jobs this' = keyOf <$> InMemoryDatabase.jobs this.
Proof. apply InMemoryMore.update_keys. Qed.

(** A report for the only stored job. *)
Lemma in_memory_update_keeps_keys_witness :
  keyOf <$> [ProcessorJob.mk Fixtures.x1 7 2 9 "items" (Some "boom")]
  = keyOf <$> InMemoryDatabase.jobs (Database.store (Fixtures.oneJob 0)).
Proof.
  apply (in_memory_update_keeps_keys
           (ProcessorJob.mk Fixtures.x1 7 2 9 "items" (Some "boom"))
           (Database.store (Fixtures.oneJob 0))
           (InMemoryDatabase.mk
              [ProcessorJob.mk Fixtures.x1 7 2 9 "items" (Some "boom")])).
  reflexivity.
Defined.

(** X10. With unique keys in the in-memory store, once the success report
    of a job has been written at time [now], no job with that URL is
    returned to the stage by [query] at any time up to [now + intervalMs]. *)
Theorem success_makes_job_not_due (p : Processor.t) (job : ProcessorJob.t)
    (now t : Z) (inFlight : gset string) (this this' : InMemoryDatabase.t) :
  NoDup (keyOf <$> InMemoryDatabase.jobs this) →
  InMemoryDatabase.update (ScraperProcessor.successUpdate p job now) this
    = inr this' →
  t - now ≤ Processor.intervalMs p →
  Forall (λ j, ProcessorJob.url j ≠ ProcessorJob.url job)
         (InMemoryDatabase.query this' p inFlight t).
Proof.
  intros Hnd Hup Ht. apply Forall_forall. intros j Hj Hurl.
  apply InMemoryFacts.query_iff in Hj as (Hin & Hstage & Hdue & _).
  pose proof (InMemoryMore.update_keys _ _ _ Hup) as Hkeys.
  unfold InMemoryDatabase.update in Hup.
  destruct (list_find _ _) as [[i existing]|] eqn:Hf; [|done].
  injection Hup as <-. cbn [InMemoryDatabase.jobs] in *.
  apply list_find_Some in Hf as (Hi & [Hu Hs] & _).
  cbn in Hu, Hs.
  apply list_elem_of_lookup in Hin as [k Hk].
  assert (k = i) as ->.
  { rewrite <- Hkeys in Hnd.
    eapply (NoDup_lookup _ k i (keyOf j)); [exact Hnd| |].
    - by rewrite list_lookup_fmap, Hk.
    - rewrite list_lookup_fmap, list_lookup_insert_eq
        by (by eapply lookup_lt_Some).
      simpl. unfold keyOf. simpl. by rewrite Hu, Hs, Hurl, Hstage. }
  rewrite list_lookup_insert_eq in Hk by (by eapply lookup_lt_Some).
  injection Hk as <-.
  unfold InMemoryDatabase.isDue, truthy in Hdue. cbn in Hdue.
  destruct Hdue as [?|[?|[[[] _]|?]]]; [lia|done|lia].
Qed.

(** The fresh job of [x1] reported successful at 5, queried at 1000. *)
Lemma success_makes_job_not_due_witness :
  Forall (λ j, ProcessorJob.url j ≠ Fixtures.x1)
    (InMemoryDatabase.query
       (InMemoryDatabase.mk [ProcessorJob.mk Fixtures.x1 1 1 5 "items" None])
       Fixtures.items ∅ 1000).
Proof.
  apply (success_makes_job_not_due Fixtures.items
           (freshJob Fixtures.items 0 Fixtures.x1) 5 1000 ∅
           (Database.store (Fixtures.oneJob 0))).
  - cbn. apply NoDup_singleton.
  - reflexivity.
  - cbn. lia.
Defined.

(** ** The SQL store *)
Module BunSqlMore.
Import BunSqlDatabase.

Lemma filter_agree {A : Type} (P Q : A → Prop)
    `{!∀ x, Decision (P x), !∀ x, Decision (Q x)} (l : list A) :
  (∀ x, x ∈ l → (P x ↔ Q x)) → filter P l = filter Q l.
Proof.
  induction l as [|a l IH]; intros Hpq; [done|].
  assert (filter P l = filter Q l) as Hl.
  { apply IH. intros x Hx. apply Hpq. by right. }
  destruct (decide (P a)) as [Ha|Ha].
  - rewrite !filter_cons_True; [by rewrite Hl| |done].
    apply Hpq; [by left|done].
  - rewrite !filter_cons_False; [done| |done].
    intros Hq. apply Ha, Hpq; [by left|done].
Qed.

Lemma key_in_table (tbl : list ProcessorJob.t) (row : ProcessorJob.t) :
  Exists (sameKey (ProcessorJob.url row) (ProcessorJob.processor row)) tbl ↔
    keyOf row ∈ keyOf <$> tbl.
Proof.
  rewrite Exists_exists, list_elem_of_fmap. unfold keyOf, sameKey. split.
  - intros (j & Hj & Hu & Hs). exists j. by rewrite Hu, Hs.
  - intros (j & Hk & Hj). exists j. injection Hk as Hu Hs. done.
Qed.

Lemma insertOrIgnore_keys tbl row k :
  k ∈ keyOf <$> insertOrIgnore tbl row ↔ k ∈ keyOf <$> tbl ∨ k = keyOf row.
Proof.
  unfold insertOrIgnore. destruct (decide _) as [HE|HE].
  - split; [by left|]. intros [?|Hk]; [done|]. subst k. by apply key_in_table.
  - rewrite fmap_app, elem_of_app. simpl. by rewrite list_elem_of_singleton.
Qed.

Lemma insertOrIgnore_unique tbl row :
  NoDup (keyOf <$> tbl) → NoDup (keyOf <$> insertOrIgnore tbl row).
Proof.
  intros Hnd. unfold insertOrIgnore. destruct (decide _) as [HE|HE]; [done|].
  rewrite fmap_app. apply NoDup_app. split; [done|]. split.
  - intros k Hk ->%list_elem_of_singleton. by apply HE, key_in_table.
  - apply NoDup_singleton.
Qed.

Lemma insert_all_keys rows tbl k :
  k ∈ keyOf <$> foldl insertOrIgnore tbl rows ↔
    k ∈ keyOf <$> tbl ∨ k ∈ keyOf <$> rows.
Proof.
  revert tbl. induction rows as [|row rows IH]; intros tbl; simpl.
  - split; [by left|]. intros [?|?%elem_of_nil]; done.
  - rewrite IH, insertOrIgnore_keys, elem_of_cons. tauto.
Qed.

Lemma insert_all_unique rows tbl :
  NoDup (keyOf <$> tbl) → NoDup (keyOf <$> foldl insertOrIgnore tbl rows).
Proof.
  revert tbl. induction rows as [|row rows IH]; intros tbl Hnd; [done|].
  simpl. by apply IH, insertOrIgnore_unique.
Qed.

Lemma insert_all_present rows tbl :
  Forall (λ row, keyOf row ∈ keyOf <$> tbl) rows →
  foldl insertOrIgnore tbl rows = tbl.
Proof.
  induction 1 as [|row rows Hrow _ IH]; [done|]. simpl.
  unfold insertOrIgnore at 2. by rewrite decide_True by (by apply key_in_table).
Qed.

Lemma fresh_keys p now (urls : list string) (k : string * string) :
  k ∈ keyOf <$> (freshJob p now <$> urls) ↔
    ∃ u, u ∈ urls ∧ k = (u, Processor.name p).
Proof.
  rewrite <- list_fmap_compose, list_elem_of_fmap. split.
  - intros (u & -> & Hu). by exists u.
  - intros (u & Hu & ->). by exists u.
Qed.

(** On a batch without repeats the SQL insertion appends what the
    in-memory filter appends. *)
Lemma insert_all_as_filter p now urls tbl :
  NoDup urls →
  foldl insertOrIgnore tbl (freshJob p now <$> urls)
  = tbl ++ (freshJob p now
              <$> filter (λ u, ¬ Exists (sameKey u (Processor.name p)) tbl) urls).
Proof.
  intros Hnd. revert tbl.
  induction Hnd as [|u urls Hu _ IH]; intros tbl.
  - simpl. by rewrite app_nil_r.
  - rewrite fmap_cons. cbn [foldl]. rewrite IH.
    unfold insertOrIgnore. cbn [freshJob ProcessorJob.url ProcessorJob.processor].
    destruct (decide (Exists (sameKey u (Processor.name p)) tbl)) as [HE|HE].
    + by rewrite filter_cons_False by (by intros Hno).
    + rewrite filter_cons_True by done. rewrite fmap_cons, <- app_assoc.
      simpl. do 3 f_equal. apply filter_agree. intros v Hv.
      rewrite Exists_app, Exists_cons, Exists_nil. unfold sameKey at 2. simpl.
      split; intros Hno; [tauto|].
      intros [?|[[? _]|[]]]; [done|]. by subst v.
Qed.

End BunSqlMore.

(** X11. [INSERT OR IGNORE] under the primary key keeps the (url, stage)
    pairs of the table unique, whatever the batch: also when a URL occurs
    in it more than once. *)
Theorem sql_insert_keeps_keys_unique (urls : list string) (p : Processor.t)
    (now : Z) (this : BunSqlDatabase.t) :
  NoDup (keyOf <$> BunSqlDatabase.rows this) →
  NoDup (keyOf <$> BunSqlDatabase.rows
                     (BunSqlDatabase.batchInsertUrls urls p now this)).
Proof. intros Hnd. simpl. by apply BunSqlMore.insert_all_unique. Qed.

(** The same URL three times into an empty table. *)
Lemma sql_insert_keeps_keys_unique_witness :
  NoDup (keyOf <$> BunSqlDatabase.rows
           (BunSqlDatabase.batchInsertUrls
              [Fixtures.x1; Fixtures.x1; Fixtures.x1] Fixtures.items 4
              (BunSqlDatabase.mk []))).
Proof.
  apply sql_insert_keeps_keys_unique. cbn. apply NoDup_nil_2.
Defined.

(** X12. After the SQL insertion the table holds a row for a (url, stage)
    pair exactly when it held one before or the URL is in the batch. *)
Theorem sql_insert_keys (urls : list string) (p : Processor.t) (now : Z)
    (this : BunSqlDatabase.t) (k : string * string) :
  k ∈ keyOf <$> BunSqlDatabase.rows
                  (BunSqlDatabase.batchInsertUrls urls p now this) ↔
    k ∈ keyOf <$> BunSqlDatabase.rows this
    ∨ ∃ u, u ∈ urls ∧ k = (u, Processor.name p).
Proof.
  simpl. rewrite BunSqlMore.insert_all_keys.
  by rewrite (BunSqlMore.fresh_keys p now urls k).
Qed.

(** X13. On a batch in which no URL is repeated the two back ends insert
    alike: started from the same rows they end with the same rows, in the
    same order. *)
Theorem backends_insert_alike (urls : list string) (p : Processor.t) (now : Z)
    (stored : list ProcessorJob.t) :
  NoDup urls →
  BunSqlDatabase.rows
    (BunSqlDatabase.batchInsertUrls urls p now (BunSqlDatabase.mk stored))
  = InMemoryDatabase.jobs
      (InMemoryDatabase.batchInsertUrls urls p now (InMemoryDatabase.mk stored)).
Proof. intros Hnd. simpl. by apply BunSqlMore.insert_all_as_filter. Qed.

(** Two URLs, one of them stored already. *)
Lemma backends_insert_alike_witness :
  BunSqlDatabase.rows
    (BunSqlDatabase.batchInsertUrls [Fixtures.x1; "http://x/2"] Fixtures.items 6
       (BunSqlDatabase.mk [freshJob Fixtures.items 0 Fixtures.x1]))
  = InMemoryDatabase.jobs
      (InMemoryDatabase.batchInsertUrls [Fixtures.x1; "http://x/2"]
         Fixtures.items 6
         (InMemoryDatabase.mk [freshJob Fixtures.items 0 Fixtures.x1])).
Proof.
  apply backends_insert_alike.
  apply NoDup_cons. split; [|apply NoDup_singleton].
  intros [=]%list_elem_of_singleton.
Defined.

(** X14. Inserting a batch into the SQL table a second time changes
    nothing. *)
Theorem sql_insert_idempotent (urls : list string) (p : Processor.t)
    (now later : Z) (this : BunSqlDatabase.t) :
  BunSqlDatabase.batchInsertUrls urls p later
    (BunSqlDatabase.batchInsertUrls urls p now this)
  = BunSqlDatabase.batchInsertUrls urls p now this.
Proof.
  unfold BunSqlDatabase.batchInsertUrls at 1.
  rewrite BunSqlMore.insert_all_present.
  - by destruct (BunSqlDatabase.batchInsertUrls urls p now this).
  - apply Forall_forall. intros row Hrow.
    apply list_elem_of_fmap in Hrow as (u & -> & Hu).
    simpl. apply BunSqlMore.insert_all_keys. right.
    apply (BunSqlMore.fresh_keys p now urls). by exists u.
Qed.

(** X15. When the cutoff date [now - intervalMs] is one a [Date] can
    hold and at most twenty rows of the table satisfy the [WHERE] clause,
    the SQL query resolves and returns all of them. *)
Theorem sql_query_complete_under_limit (this : BunSqlDatabase.t)
    (p : Processor.t) (now : Z) :
  BunSqlDatabase.timeValueInRange (now - Processor.intervalMs p) →
  (length (filter (BunSqlDatabase.whereDue p now) (BunSqlDatabase.rows this))
     ≤ 20)%nat →
  ∃ returned,
    BunSqlDatabase.queryOrThrow this p now = Some returned
    ∧ returned
        ≡ₚ filter (BunSqlDatabase.whereDue p now) (BunSqlDatabase.rows this).
Proof.
  intros Hvalid Hlen. exists (BunSqlDatabase.query this p now). split.
  - unfold BunSqlDatabase.queryOrThrow. by rewrite decide_True.
  - unfold BunSqlDatabase.query. rewrite take_ge.
    + apply merge_sort_Permutation.
    + by rewrite merge_sort_Permutation.
Qed.

(** Two fresh rows of [items], whose interval is a hundred years. *)
Lemma sql_query_complete_under_limit_witness :
  ∃ returned,
    BunSqlDatabase.queryOrThrow
      (BunSqlDatabase.mk [freshJob Fixtures.items 2 Fixtures.x1;
                          freshJob Fixtures.items 1 "http://x/2"])
      Fixtures.items 5 = Some returned
    ∧ returned
        ≡ₚ filter (BunSqlDatabase.whereDue Fixtures.items 5)
             [freshJob Fixtures.items 2 Fixtures.x1;
              freshJob Fixtures.items 1 "http://x/2"].
Proof.
  apply (sql_query_complete_under_limit
           (BunSqlDatabase.mk [freshJob Fixtures.items 2 Fixtures.x1;
                               freshJob Fixtures.items 1 "http://x/2"])).
  - unfold BunSqlDatabase.timeValueInRange. cbn. lia.
  - vm_compute. lia.
Defined.

(** X16. What [LIMIT 20] cuts off is the newest: when a row of the table
    satisfies the [WHERE] clause and is not returned, every row that is
    returned is dated no later than it. *)
Theorem sql_limit_keeps_oldest (this : BunSqlDatabase.t) (p : Processor.t)
    (now : Z) (row : ProcessorJob.t) :
  row ∈ BunSqlDatabase.rows this →
  BunSqlDatabase.whereDue p now row →
  row ∉ BunSqlDatabase.query this p now →
  Forall (λ r, ProcessorJob.date r ≤ ProcessorJob.date row)
         (BunSqlDatabase.query this p now).
Proof.
  unfold BunSqlDatabase.query. intros Hin Hdue Hout.
  set (sorted := merge_sort BunSqlDatabase.dateAsc
                   (filter (BunSqlDatabase.whereDue p now)
                           (BunSqlDatabase.rows this))) in *.
  assert (Hs : StronglySorted BunSqlDatabase.dateAsc sorted)
    by (apply StronglySorted_merge_sort; apply _).
  assert (Hrow : row ∈ sorted).
  { unfold sorted. rewrite merge_sort_Permutation.
    by apply list_elem_of_filter. }
  rewrite <- (take_drop 20 sorted) in Hs, Hrow.
  apply elem_of_app in Hrow as [Hrow|Hrow]; [done|].
  apply Forall_forall. intros r Hr.
  by apply (StronglySorted_app_1_elem_of _ _ _ _ _ Hs Hr Hrow).
Qed.

(** The crowded table: the row processed at 50 is the one left out. *)
Lemma sql_limit_keeps_oldest_witness :
  Forall (λ r, ProcessorJob.date r ≤ 50)
    (BunSqlDatabase.query (BunSqlDatabase.mk Fixtures.crowded) Fixtures.items 100).
Proof.
  apply (sql_limit_keeps_oldest (BunSqlDatabase.mk Fixtures.crowded)
           Fixtures.items 100
           (ProcessorJob.mk "http://x/0" 0 1 50 "items" None)).
  - apply list_elem_of_here.
  - split; [reflexivity|]. right. right. left. done.
  - apply (proj1 (bool_decide_eq_false _)). vm_compute. reflexivity.
Defined.

(** X17. An SQL [UPDATE] of a job changes no (url, stage) pair of the
    table and no position: rows are neither added nor removed. *)
Theorem sql_update_keeps_keys (job : ProcessorJob.t)
    (this this' : BunSqlDatabase.t) :
  BunSqlDatabase.update job this = inr this' →
  keyOf <$> BunSqlDatabase.rows this' = keyOf <$> BunSqlDatabase.rows this.
Proof.
  unfold BunSqlDatabase.update. intros [= <-]. cbn [BunSqlDatabase.rows].
  rewrite <- list_fmap_compose. apply list_fmap_ext. intros i row _.
  simpl. destruct (decide _) as [[Hu Hs]|_]; [|done].
  unfold keyOf. simpl. by rewrite Hu, Hs.
Qed.

(** A report for the only row of the table. *)
Lemma sql_update_keeps_keys_witness :
  keyOf <$> [ProcessorJob.mk Fixtures.x1 7 2 9 "items" (Some "boom")]
  = keyOf <$> [freshJob Fixtures.items 0 Fixtures.x1].
Proof.
  apply (sql_update_keeps_keys
           (ProcessorJob.mk Fixtures.x1 7 2 9 "items" (Some "boom"))
           (BunSqlDatabase.mk [freshJob Fixtures.items 0 Fixtures.x1])
           (BunSqlDatabase.mk
              [ProcessorJob.mk Fixtures.x1 7 2 9 "items" (Some "boom")])).
  reflexivity.
Defined.

(** ** [processJob] on every path *)
Module ProcessJobMore.
Import ScraperProcessor.

Section Generic.
Variable Json : Type.
Variable bufferToString : Buffer → string.
Variable JSON_parse : string → JsError + Json.
Context {S D : Type} `{!Backend S} `{!Downloader D}.

Local Arguments processData : simpl never.

(** Where the database of the processor ends up: untouched, or after one
    [update] that succeeded on what the callbacks left. *)
Lemma processJob_database p cbs job rethrow now (this : t S D) :
  let r := processJob Json bufferToString JSON_parse p cbs job rethrow now this in
  Database.store (database r.2) = Database.store (database this)
  ∨ ∃ upd db1 db2,
      Database.store db1 = Database.store (database this)
      ∧ Database.update upd db1 = inr db2
      ∧ database r.2 = db2
      ∧ r.1 = Returned.
Proof.
  unfold processJob, processingFailed, withDatabase.
  cbn [database downloader fst snd].
  destruct (dl_download _ _) as [[e|data] d']; cbn [fst snd].
  { destruct rethrow; by left. }
  pose proof (ProcessorFacts.processData_store Json bufferToString JSON_parse
                cbs (ProcessorJob.url job) data (database this)) as Hpd.
  destruct (processData _ _ _ _ _ _ _) as [[e|] db1];
    cbn [fst snd database] in *.
  - destruct rethrow; [left; exact Hpd|].
    destruct (Database.update (failureUpdate p job now) db1) as [e'|db2] eqn:Hup;
      cbn [finallyDone database fst snd]; [left; exact Hpd|].
    right. by exists (failureUpdate p job now), db1, db2.
  - destruct (Database.update (successUpdate p job now) db1) as [e'|db2] eqn:Hup.
    + destruct rethrow; [left; exact Hpd|].
      destruct (Database.update (failureUpdate p job now) db1)
        as [e''|db3] eqn:Hup';
        cbn [finallyDone database fst snd]; [left; exact Hpd|].
      right. by exists (failureUpdate p job now), db1, db3.
    + cbn [finallyDone database fst snd].
      right. by exists (successUpdate p job now), db1, db2.
Qed.

(** The [finally] block runs on every path. *)
Lemma processJob_finally p cbs job rethrow now (this : t S D) :
  let r := processJob Json bufferToString JSON_parse p cbs job rethrow now this in
  currentlyProcessingUrls r.2
  = ({[ProcessorJob.url job]} ∪ currentlyProcessingUrls this)
      ∖ {[ProcessorJob.url job]}
  ∧ emitted r.2 = emitted this ++ [JOB_PROCESSED job]
  ∧ pendingJobs r.2 = pendingJobs this.
Proof.
  unfold processJob, processingFailed, withDatabase.
  cbn [database downloader fst snd].
  destruct (dl_download _ _) as [[e|data] d']; cbn [fst snd].
  { by destruct rethrow. }
  destruct (processData _ _ _ _ _ _ _) as [[e|] db1]; cbn [fst snd database].
  - destruct rethrow; [done|]. by destruct (Database.update (failureUpdate p job now) db1).
  - destruct (Database.update (successUpdate p job now) db1); [|done].
    destruct rethrow; [done|]. by destruct (Database.update (failureUpdate p job now) db1).
Qed.

(** With [rethrow] on, an error leaves the stored rows alone. *)
Lemma processJob_rethrow_store p cbs job now (this : t S D) e :
  (processJob Json bufferToString JSON_parse p cbs job true now this).1 = Thrown e →
  Database.store
    (database (processJob Json bufferToString JSON_parse p cbs job true now this).2)
  = Database.store (database this).
Proof.
  intros Hthrown.
  destruct (processJob_database p cbs job true now this)
    as [Hsame|(upd & db1 & db2 & _ & _ & _ & Hret)]; [done|].
  cbv zeta in Hret. by rewrite Hret in Hthrown.
Qed.

End Generic.
End ProcessJobMore.

(** X18. Whatever happens to the job (download or callback failure,
    success, a rethrown or a storage error), [processJob] ends with the
    URL of the job out of the in-flight set, exactly one [JOB_PROCESSED]
    event appended, whose job has the url and the stage of the job
    processed, and the local batch untouched. *)
Theorem processJob_always_releases {S D : Type} `{!Backend S} `{!Downloader D}
    (Json : Type) (bufferToString : Buffer → string)
    (JSON_parse : string → JsError + Json)
    (p : Processor.t) (cbs : ScraperProcessor.Callbacks Json)
    (job : ProcessorJob.t) (rethrow : bool) (now : Z)
    (this : ScraperProcessor.t S D) :
  let r := ScraperProcessor.processJob Json bufferToString JSON_parse
             p cbs job rethrow now this in
  ScraperProcessor.currentlyProcessingUrls r.2
  = ScraperProcessor.currentlyProcessingUrls this ∖ {[ProcessorJob.url job]}
  ∧ (∃ carried,
       ScraperProcessor.emitted r.2
       = ScraperProcessor.emitted this ++ [JOB_PROCESSED carried]
       ∧ keyOf carried = keyOf job)
  ∧ ScraperProcessor.pendingJobs r.2 = ScraperProcessor.pendingJobs this.
Proof.
  intros r.
  destruct (ProcessJobMore.processJob_finally Json bufferToString JSON_parse
              p cbs job rethrow now this) as (Hfl & Hev & Hpj).
  split; [|split; [by exists job|done]]. subst r. rewrite Hfl.
  apply set_eq. intros x.
  rewrite !elem_of_difference, elem_of_union, elem_of_singleton. tauto.
Qed.

(** X19. [processJob] never adds, removes or moves a row of the in-memory
    store: the list of (url, stage) pairs is the same before and after, on
    every path. *)
Theorem processJob_keeps_rows {D : Type} `{!Downloader D}
    (Json : Type) (bufferToString : Buffer → string)
    (JSON_parse : string → JsError + Json)
    (p : Processor.t) (cbs : ScraperProcessor.Callbacks Json)
    (job : ProcessorJob.t) (rethrow : bool) (now : Z)
    (this : ScraperProcessor.t InMemoryDatabase.t D) :
  let r := ScraperProcessor.processJob Json bufferToString JSON_parse
             p cbs job rethrow now this in
  keyOf <$> InMemoryDatabase.jobs (Database.store (ScraperProcessor.database r.2))
  = keyOf <$> InMemoryDatabase.jobs
                (Database.store (ScraperProcessor.database this)).
Proof.
  intros r.
  destruct (ProcessJobMore.processJob_database Json bufferToString JSON_parse
              p cbs job rethrow now this)
    as [Hsame|(upd & db1 & db2 & Hdb1 & Hup & Hdb & _)].
  - subst r. by rewrite Hsame.
  - subst r. rewrite Hdb, <- Hdb1.
    unfold Database.update in Hup. cbn [db_update InMemoryDatabase.backend] in Hup.
    destruct (InMemoryDatabase.update upd (Database.store db1)) as [e|s] eqn:Hs;
      [done|].
    injection Hup as <-. cbn [Database.store].
    by apply InMemoryMore.update_keys with upd.
Qed.

(** X20. With [rethrow] on, a [processJob] that ends in an error has
    written nothing: the stored rows are those it found. *)
Theorem rethrow_leaves_store {S D : Type} `{!Backend S} `{!Downloader D}
    (Json : Type) (bufferToString : Buffer → string)
    (JSON_parse : string → JsError + Json)
    (p : Processor.t) (cbs : ScraperProcessor.Callbacks Json)
    (job : ProcessorJob.t) (now : Z) (this : ScraperProcessor.t S D)
    (e : JsError) :
  (ScraperProcessor.processJob Json bufferToString JSON_parse
     p cbs job true now this).1 = Thrown e →
  Database.store
    (ScraperProcessor.database
       (ScraperProcessor.processJob Json bufferToString JSON_parse
          p cbs job true now this).2)
  = Database.store (ScraperProcessor.database this).
Proof. apply ProcessJobMore.processJob_rethrow_store. Qed.

(** The rejecting callback on the fresh job of [x1], [rethrow] on. *)
Lemma rethrow_leaves_store_witness :
  Database.store
    (ScraperProcessor.database
       (Fixtures.processJob Fixtures.items Fixtures.rejecting
          (freshJob Fixtures.items 0 Fixtures.x1) true 5
          (Fixtures.worker (Fixtures.oneJob 0) Fixtures.online)).2)
  = Database.store (Fixtures.oneJob 0).
Proof.
  apply (rethrow_leaves_store unit Fixtures.decode Fixtures.parse Fixtures.items
           Fixtures.rejecting (freshJob Fixtures.items 0 Fixtures.x1) 5
           (Fixtures.worker (Fixtures.oneJob 0) Fixtures.online)
           (Error "Invalid item")).
  reflexivity.
Defined.

(** ** Storage errors of [processJob] on the in-memory store *)
Module StorageErrors.
Import ScraperProcessor.

Lemma update_succeeds upd (db : Database.t InMemoryDatabase.t) :
  Exists (sameKey (ProcessorJob.url upd) (ProcessorJob.processor upd))
         (InMemoryDatabase.jobs (Database.store db)) →
  ∃ db', Database.update upd db = inr db'.
Proof.
  intros HE. unfold Database.update. cbn [db_update InMemoryDatabase.backend].
  destruct (InMemoryFacts.find_of_Exists _ _ _ HE) as (i & existing & Hf & _).
  rewrite (InMemoryFacts.update_found _ _ i existing Hf). by eexists.
Qed.

Lemma update_fails upd (db : Database.t InMemoryDatabase.t) :
  ¬ Exists (sameKey (ProcessorJob.url upd) (ProcessorJob.processor upd))
           (InMemoryDatabase.jobs (Database.store db)) →
  Database.update upd db = inl (InMemoryDatabase.notFound upd).
Proof.
  intros HE. unfold Database.update. cbn [db_update InMemoryDatabase.backend].
  by rewrite InMemoryFacts.update_missing.
Qed.

End StorageErrors.

(** X21. With [rethrow] off and the row of the job in the in-memory
    store, [processJob] returns normally on every path, whatever the
    download and the callbacks do. *)
Theorem processJob_returns_when_row_exists {D : Type} `{!Downloader D}
    (Json : Type) (bufferToString : Buffer → string)
    (JSON_parse : string → JsError + Json)
    (p : Processor.t) (cbs : ScraperProcessor.Callbacks Json)
    (job : ProcessorJob.t) (now : Z)
    (this : ScraperProcessor.t InMemoryDatabase.t D) :
  Exists (sameKey (ProcessorJob.url job) (Processor.name p))
    (InMemoryDatabase.jobs (Database.store (ScraperProcessor.database this))) →
  (ScraperProcessor.processJob Json bufferToString JSON_parse
     p cbs job false now this).1 = Returned.
Proof.
  intros Hrow.
  unfold ScraperProcessor.processJob, ScraperProcessor.processingFailed,
    ScraperProcessor.withDatabase.
  cbn [ScraperProcessor.database ScraperProcessor.downloader fst snd].
  destruct (dl_download _ _) as [[e|data] d']; cbn [fst snd]; [done|].
  pose proof (ProcessorFacts.processData_store Json bufferToString JSON_parse
                cbs (ProcessorJob.url job) data
                (ScraperProcessor.database this)) as Hpd.
  destruct (ScraperProcessor.processData _ _ _ _ _ _ _) as [res db1].
  cbn [fst snd ScraperProcessor.database] in *.
  rewrite <- Hpd in Hrow.
  destruct (StorageErrors.update_succeeds
              (ScraperProcessor.failureUpdate p job now) db1 Hrow) as [dbF HF].
  destruct (StorageErrors.update_succeeds
              (ScraperProcessor.successUpdate p job now) db1 Hrow) as [dbS HS].
  destruct res as [e|]; [by rewrite HF|by rewrite HS].
Qed.

(** The rejecting callback on the stored job of [x1]. *)
Lemma processJob_returns_when_row_exists_witness :
  (Fixtures.processJob Fixtures.items Fixtures.rejecting
     (freshJob Fixtures.items 0 Fixtures.x1) false 5
     (Fixtures.worker (Fixtures.oneJob 0) Fixtures.online)).1 = Returned.
Proof.
  apply (processJob_returns_when_row_exists unit Fixtures.decode Fixtures.parse).
  apply Exists_cons_hd. split; reflexivity.
Defined.

(** X22. With [rethrow] off, a job that downloads but has no row in the
    in-memory store ends [processJob] with the store's not-found error,
    whether its callbacks succeed or fail: a report for a missing row is
    not swallowed by the worker. *)
Theorem missing_row_stops_processJob {D : Type} `{!Downloader D}
    (Json : Type) (bufferToString : Buffer → string)
    (JSON_parse : string → JsError + Json)
    (p : Processor.t) (cbs : ScraperProcessor.Callbacks Json)
    (job : ProcessorJob.t) (now : Z)
    (this : ScraperProcessor.t InMemoryDatabase.t D) (data : Buffer) (d' : D) :
  ¬ Exists (sameKey (ProcessorJob.url job) (Processor.name p))
      (InMemoryDatabase.jobs (Database.store (ScraperProcessor.database this))) →
  dl_download (ProcessorJob.url job) (ScraperProcessor.downloader this)
    = (inr data, d') →
  (ScraperProcessor.processJob Json bufferToString JSON_parse
     p cbs job false now this).1
  = Thrown (InMemoryDatabase.notFound
              (ScraperProcessor.failureUpdate p job now)).
Proof.
  intros Hrow Hdl.
  unfold ScraperProcessor.processJob, ScraperProcessor.processingFailed,
    ScraperProcessor.withDatabase.
  cbn [ScraperProcessor.database ScraperProcessor.downloader fst snd].
  rewrite Hdl. cbn [fst snd].
  pose proof (ProcessorFacts.processData_store Json bufferToString JSON_parse
                cbs (ProcessorJob.url job) data
                (ScraperProcessor.database this)) as Hpd.
  destruct (ScraperProcessor.processData _ _ _ _ _ _ _) as [res db1].
  cbn [fst snd ScraperProcessor.database] in *.
  rewrite <- Hpd in Hrow.
  pose proof (StorageErrors.update_fails
                (ScraperProcessor.failureUpdate p job now) db1 Hrow) as HF.
  pose proof (StorageErrors.update_fails
                (ScraperProcessor.successUpdate p job now) db1 Hrow) as HS.
  destruct res as [e|]; [by rewrite HF|by rewrite HS, HF].
Qed.

(** The job of [x1] on an empty store, accepted by its callback. *)
Lemma missing_row_stops_processJob_witness :
  (Fixtures.processJob Fixtures.items Fixtures.accepting
     (freshJob Fixtures.items 0 Fixtures.x1) false 5
     (Fixtures.worker Fixtures.emptyStore Fixtures.online)).1
  = Thrown (Error "Job for URL http://x/1 and processor items not found").
Proof.
  apply (missing_row_stops_processJob unit Fixtures.decode Fixtures.parse
           Fixtures.items Fixtures.accepting
           (freshJob Fixtures.items 0 Fixtures.x1) 5
           (Fixtures.worker Fixtures.emptyStore Fixtures.online)
           Fixtures.okBody
           (FetchDownloader.mk Fixtures.warmCache Fixtures.online
              [CacheGet Fixtures.x1; SemaphoreAcquire; FetchCall Fixtures.x1;
               CacheSet Fixtures.x1 Fixtures.okBody; SemaphoreRelease])).
  - cbn. by intros ?%Exists_nil.
  - reflexivity.
Defined.

(** ** Acquisition *)

(** X23. A job handed out by the polling loop on the in-memory store comes
    from one of its polls: at that moment it was stored for the stage,
    due, and not in flight, and the jobs kept as the local batch are the
    rest of that same query result. *)
Theorem acquired_job_was_due (p : Processor.t)
    (rounds : list (ScraperProcessor.Round InMemoryDatabase.t)) (clock : Z)
    (job : ProcessorJob.t) (rest : list ProcessorJob.t) (polls : list Z) :
  ScraperProcessor.pollLoop p rounds clock
    = (ScraperProcessor.Acquired job rest, polls) →
  ∃ round t,
    round ∈ rounds ∧ t ∈ polls
    ∧ job :: rest
      = Database.query (ScraperProcessor.databaseThen round) p
          (ScraperProcessor.inFlightThen round) t
    ∧ job ∈ InMemoryDatabase.jobs
              (Database.store (ScraperProcessor.databaseThen round))
    ∧ ProcessorJob.processor job = Processor.name p
    ∧ InMemoryDatabase.isDue p t job
    ∧ ProcessorJob.url job ∉ ScraperProcessor.inFlightThen round.
Proof.
  revert clock polls. induction rounds as [|r rounds IH]; intros clock polls.
  { simpl. by intros [=]. }
  cbn [ScraperProcessor.pollLoop].
  destruct (Database.query _ _ _ _) as [|j js] eqn:Hq.
  - destruct (ScraperProcessor.awaitWait _ _ _) as [ms|]; [|by intros [=]].
    destruct (ScraperProcessor.pollLoop p rounds (clock + ms)) as [acq ps] eqn:Hk.
    cbn [fst snd]. intros [= -> <-].
    destruct (IH _ _ Hk) as (round & t & Hr & Ht & Hrest).
    exists round, t. split; [by right|]. split; [by right|]. done.
  - intros [= -> -> <-]. exists r, clock.
    split; [by left|]. split; [by left|]. split; [done|].
    assert (Hin : job ∈ Database.query (ScraperProcessor.databaseThen r) p
                          (ScraperProcessor.inFlightThen r) clock)
      by (rewrite Hq; by left).
    unfold Database.query in Hin. cbn [db_query InMemoryDatabase.backend] in Hin.
    by apply InMemoryFacts.query_iff in Hin.
Qed.

(** The three rounds of the fixtures. *)
Lemma acquired_job_was_due_witness :
  ∃ round t,
    round ∈ Fixtures.threeRounds ∧ t ∈ [0; 1000; 1250]
    ∧ [freshJob Fixtures.items 1250 Fixtures.x1]
      = Database.query (ScraperProcessor.databaseThen round) Fixtures.items
          (ScraperProcessor.inFlightThen round) t
    ∧ freshJob Fixtures.items 1250 Fixtures.x1
        ∈ InMemoryDatabase.jobs
            (Database.store (ScraperProcessor.databaseThen round))
    ∧ ProcessorJob.processor (freshJob Fixtures.items 1250 Fixtures.x1)
      = Processor.name Fixtures.items
    ∧ InMemoryDatabase.isDue Fixtures.items t
        (freshJob Fixtures.items 1250 Fixtures.x1)
    ∧ ProcessorJob.url (freshJob Fixtures.items 1250 Fixtures.x1)
        ∉ ScraperProcessor.inFlightThen round.
Proof.
  apply (acquired_job_was_due Fixtures.items Fixtures.threeRounds 0).
  vm_compute. reflexivity.
Defined.

(** ** The wait and its two callbacks *)

(** X24. Notifications for other processors never end the wait: over a
    timeline that holds nothing else, the promise does not resolve. Only
    the timer or the processor's own notification resolves it. *)
Theorem foreign_notifications_never_end_the_wait (self : Processor.t)
    (timeline : list (Z * ScraperProcessor.WaitEvent)) :
  Forall (λ dated, ∃ q, dated.2 = ScraperProcessor.Emitted (NEW_JOBS q) ∧ q ≠ self)
         timeline →
  ScraperProcessor.awaitWait self timeline ScraperProcessor.waiting = None.
Proof.
  induction 1 as [|[ms ev] rest (q & Hev & Hq) _ IH]; [done|].
  simpl in Hev. subst ev. cbn [ScraperProcessor.awaitWait].
  pose proof (WaitFacts.deliver_waiting self
                (ScraperProcessor.Emitted (NEW_JOBS q))) as Hd.
  cbn in Hd. rewrite decide_False in Hd by done.
  cbn. by rewrite Hd.
Qed.

(** [items] waits while [listings] is notified twice. *)
Lemma foreign_notifications_never_end_the_wait_witness :
  ScraperProcessor.awaitWait Fixtures.items
    [(10, ScraperProcessor.Emitted (NEW_JOBS Fixtures.listings));
     (20, ScraperProcessor.Emitted (NEW_JOBS Fixtures.listings))]
    ScraperProcessor.waiting = None.
Proof.
  apply foreign_notifications_never_end_the_wait.
  repeat apply List.Forall_cons; try apply List.Forall_nil;
    (exists Fixtures.listings; split; [reflexivity|by intros [=]]).
Defined.

(** X25. Whatever events are delivered, the waiter is either still
    waiting with its timer armed and its listener subscribed, or resolved
    with the timer cleared and the listener removed: the wait never ends
    leaving a timer or a listener behind. *)
Theorem waiter_ends_disarmed (self : Processor.t)
    (events : list ScraperProcessor.WaitEvent) :
  let w := foldl (λ w ev, ScraperProcessor.deliver self ev w)
                 ScraperProcessor.waiting events in
  w = ScraperProcessor.waiting
  ∨ w = ScraperProcessor.mkWaiter true false false.
Proof.
  cbv zeta.
  assert (∀ w, w = ScraperProcessor.waiting
               ∨ w = ScraperProcessor.mkWaiter true false false →
               let w' := foldl (λ w ev, ScraperProcessor.deliver self ev w) w events in
               w' = ScraperProcessor.waiting
               ∨ w' = ScraperProcessor.mkWaiter true false false) as Hall.
  { induction events as [|ev events IH]; intros w Hw; [done|].
    cbn [foldl]. apply IH. destruct Hw as [->| ->].
    - pose proof (WaitFacts.deliver_waiting self ev) as Hd.
      destruct ev as [|[q]].
      + by right.
      + destruct (decide (q = self)) as [->|Hne]; [|by left].
        right. cbn. unfold ScraperProcessor.finish.
        by rewrite decide_False by (by intros ?).
    - right. by destruct ev as [|[q]]. }
  apply Hall. by left.
Qed.

(** ** The two due predicates *)

(** X28. When the cutoff date [now - intervalMs] is one a [Date] can
    hold, a job passes the [WHERE] clause of the SQL query exactly when it
    passes the first two filters of the in-memory query (stage, then due),
    or is of the stage with the empty string as [error] and
    [attempt < maxAttempts]: SQL counts the empty string as a recorded
    error ([IS NOT NULL]), JavaScript counts it as none. The third filter
    of the in-memory query (not in flight) has no counterpart in the SQL
    statement and is not part of this comparison. *)
Theorem due_predicates_compared (p : Processor.t) (now : Z)
    (job : ProcessorJob.t) :
  BunSqlDatabase.timeValueInRange (now - Processor.intervalMs p) →
  BunSqlDatabase.whereDue p now job ↔
    ProcessorJob.processor job = Processor.name p
    ∧ (InMemoryDatabase.isDue p now job
       ∨ (ProcessorJob.error job = Some ""
          ∧ ProcessorJob.attempt job < Processor.maxAttempts p)).
Proof.
  intros _.
  unfold BunSqlDatabase.whereDue, InMemoryDatabase.isDue, truthy.
  destruct (ProcessorJob.error job) as [msg|];
    [destruct (decide (msg = "")) as [->|Hne]|];
    split; intros [Hs H]; (split; [done|]);
    intuition (first [congruence | lia | done | idtac]).
Qed.

(** A job of [items] whose stored error is the empty string, after one
    attempt: selected by the [WHERE] clause, not by the in-memory filter. *)
Lemma due_predicates_compared_witness :
  let job := ProcessorJob.mk Fixtures.x1 1 1 5 "items" (Some "") in
  BunSqlDatabase.whereDue Fixtures.items 9 job
  ∧ ProcessorJob.error job = Some ""
  ∧ (InMemoryDatabase.isDue Fixtures.items 9 job → False).
Proof.
  cbv zeta.
  assert (Hvalid : BunSqlDatabase.timeValueInRange
                     (9 - Processor.intervalMs Fixtures.items))
    by (unfold BunSqlDatabase.timeValueInRange; cbn; lia).
  pose proof (due_predicates_compared Fixtures.items 9
                (ProcessorJob.mk Fixtures.x1 1 1 5 "items" (Some "")) Hvalid)
    as Hcmp.
  split; [|split; [reflexivity|]].
  - apply Hcmp. split; [reflexivity|]. right. split; [reflexivity|]. cbn. lia.
  - unfold InMemoryDatabase.isDue, truthy. cbn. intros [?|[?|[[? _]|?]]]; try lia; done.
Defined.

(** X29. The SQL query returns rows of the table only, none more often
    than the table holds it, and each one belongs to the stage and
    satisfies the [WHERE] clause. *)
Theorem sql_query_returns_due_rows (this : BunSqlDatabase.t) (p : Processor.t)
    (now : Z) :
  BunSqlDatabase.query this p now ⊆+ BunSqlDatabase.rows this
  ∧ Forall (BunSqlDatabase.whereDue p now) (BunSqlDatabase.query this p now).
Proof.
  split.
  - unfold BunSqlDatabase.query.
    etrans; [apply submseteq_take|].
    etrans; [apply Permutation_submseteq, merge_sort_Permutation|].
    apply sublist_submseteq, sublist_filter.
  - apply Forall_forall. intros row Hrow.
    by apply BunSqlFacts.query_due in Hrow as [_ ?].
Qed.
